(** * node-nano-rpc: the RaiClient request builder and transport

    A shallow embedding of [RaiClient] (constructor, [_buildRPCReq], [_send]
    and the public method adapters) together with the parts of the JavaScript
    runtime the client calls: numbers, [JSON.stringify], [JSON.parse],
    [new URL], promises and the response event stream. *)

From Stdlib Require Import ZArith Lia String Ascii List Bool.
From Stdlib Require Import SpecFloat.
From stdpp Require Import base decidable list strings pretty.

Open Scope string_scope.
Open Scope Z_scope.

(** ** Numbers

    A JavaScript number is an IEEE-754 binary64 value; [spec_float] with
    precision 53 and maximal exponent 1024 is that format. *)

Module Number.

Definition number := spec_float.

Definition prec : Z := 53.
Definition emax : Z := 1024.

#[global] Instance number_eq_dec : EqDecision number.
Proof. solve_decision. Defined.

(** The value of an integer literal: the double nearest to it, ties to even. *)
Definition of_Z (z : Z) : number := binary_normalize prec emax z 0 false.

(** The double nearest to the positive rational [p / q]. *)
Definition round_ratio (p q : Z) : number :=
  let '(mz, ez, lz) := SFdiv_core_binary prec emax p 0 q 0 in
  binary_round_aux prec emax false mz ez lz.

(** The double nearest to [m * 10 ^ e], as a decimal literal denotes it. *)
Definition of_decimal (m e : Z) : number :=
  match m with
  | Z0 => S754_zero false
  | Zpos _ =>
      if 0 <=? e then binary_normalize prec emax (m * 10 ^ e) 0 false
      else round_ratio m (10 ^ (- e))
  | Zneg p =>
      SFopp (if 0 <=? e then binary_normalize prec emax (Zpos p * 10 ^ e) 0 false
             else round_ratio (Zpos p) (10 ^ (- e)))
  end.

Definition is_finite (x : number) : bool :=
  match x with
  | S754_zero _ | S754_finite _ _ _ => true
  | _ => false
  end.

(** The exact value of a finite double, when it is an integer. *)
Definition to_Z (x : number) : option Z :=
  match x with
  | S754_zero _ => Some 0
  | S754_finite s m e =>
      if 0 <=? e then Some (cond_Zopp s (Zpos m * 2 ^ e)) else
      if (Zpos m) mod 2 ^ (- e) =? 0 then Some (cond_Zopp s (Zpos m / 2 ^ (- e)))
      else None
  | _ => None
  end.

(** *** Number::toString (radix 10), ECMAScript 6.1.6.1.20 *)

(** The positive value [m * 2 ^ e] as a fraction. *)
Definition exact (m : positive) (e : Z) : Z * Z :=
  if 0 <=? e then (Zpos m * 2 ^ e, 1) else (Zpos m, 2 ^ (- e)).

(** Least [j >= 1] with [num * 10 ^ j >= den], for [num < den]. *)
Fixpoint leading_zeros (fuel : nat) (num den j : Z) : Z :=
  match fuel with
  | O => j
  | S fuel' => if den <=? num * 10 ^ j then j else leading_zeros fuel' num den (j + 1)
  end.

(** The [n] with [10 ^ (n - 1) <= num / den < 10 ^ n]. *)
Definition decimal_exponent (num den : Z) : Z :=
  if den <=? num then Z.of_nat (String.length (pretty (num / den)))
  else 1 - leading_zeros 400 num den 1.

(** [floor (num / den * 10 ^ (k - n))]: the first [k] significant digits. *)
Definition scaled_floor (num den n k : Z) : Z :=
  let d := k - n in
  if 0 <=? d then (num * 10 ^ d) / den else num / (den * 10 ^ (- d)).

(** Is [2 * num / den] below, at or above [(2 * lo + 1) * 10 ^ (n - k)]:
    which of [lo] and [lo + 1] is nearer. *)
Definition midpoint_compare (num den n k lo : Z) : comparison :=
  let d := k - n in
  if 0 <=? d then Z.compare (2 * num * 10 ^ d) ((2 * lo + 1) * den)
  else Z.compare (2 * num) ((2 * lo + 1) * den * 10 ^ (- d)).

Definition nearer (num den n k lo : Z) : Z :=
  match midpoint_compare num den n k lo with
  | Lt => lo
  | Gt => lo + 1
  | Eq => if Z.even lo then lo else lo + 1
  end.

(** Step 5: integers [n], [k], [s] with [k] as small as possible such that
    [s * 10 ^ (n - k)] rounds to [x]; among several [s] the nearest one. *)
Fixpoint shortest (fuel : nat) (x : number) (num den n k : Z) : Z * Z :=
  let lo := scaled_floor num den n k in
  match fuel with
  | O => (nearer num den n k lo, k)
  | S fuel' =>
      let ok_lo := bool_decide (of_decimal lo (n - k) = x) in
      let ok_hi := bool_decide (of_decimal (lo + 1) (n - k) = x) in
      match ok_lo, ok_hi with
      | true, true => (nearer num den n k lo, k)
      | true, false => (lo, k)
      | false, true => (lo + 1, k)
      | false, false => shortest fuel' x num den n (k + 1)
      end
  end.

Definition zeros (n : Z) : string := String.concat "" (repeat "0" (Z.to_nat n)).

(** Steps 6 to 10: the layout of the digits of [s]. *)
Definition layout (s k n : Z) : string :=
  let digits := pretty s in
  if (k <=? n) && (n <=? 21) then digits +:+ zeros (n - k)
  else if (0 <? n) && (n <=? 21) then
    substring 0 (Z.to_nat n) digits +:+ "." +:+
    substring (Z.to_nat n) (Z.to_nat (k - n)) digits
  else if (-6 <? n) && (n <=? 0) then "0." +:+ zeros (- n) +:+ digits
  else
    let e := n - 1 in
    let sign := if e <? 0 then "-" else "+" in
    if k =? 1 then digits +:+ "e" +:+ sign +:+ pretty (Z.abs e)
    else substring 0 1 digits +:+ "." +:+ substring 1 (Z.to_nat (k - 1)) digits
         +:+ "e" +:+ sign +:+ pretty (Z.abs e).

Definition toString_pos (m : positive) (e : Z) : string :=
  let '(num, den) := exact m e in
  let n := decimal_exponent num den in
  let '(s, k) := shortest 16 (S754_finite false m e) num den n 1 in
  (* the upper neighbour may carry into the next power of ten *)
  if s =? 10 ^ k then layout (10 ^ (k - 1)) k (n + 1) else layout s k n.

Definition toString (x : number) : string :=
  match x with
  | S754_nan => "NaN"
  | S754_zero _ => "0"
  | S754_infinity false => "Infinity"
  | S754_infinity true => "-Infinity"
  | S754_finite false m e => toString_pos m e
  | S754_finite true m e => "-" +:+ toString_pos m e
  end.

End Number.

Import Number.

(** ** Values, errors and the object store *)

Definition addr := nat.

(** A JavaScript value of the kinds the client handles: no functions, so
    no [toJSON] methods.  A string is a byte string holding UTF-8 text.  An
    object or array the client builds with a literal is fresh and unaliased
    and is written in place ([VObj], [VArr]); an object of the caller, which
    may be shared or reach itself, is a reference [VRef] into the store.
    The properties of [VObj] are the own enumerable properties in
    [[OwnPropertyKeys]] order: array indices ascending, then the other keys
    in creation order. *)
#[local] Unset Elimination Schemes.
Inductive value :=
| VUndefined
| VNull
| VBool (b : bool)
| VNum (n : number)
| VStr (s : string)
| VArr (elems : list value)
| VObj (props : list (string * value))
| VRef (a : addr).
#[local] Set Elimination Schemes.

Abbreviation heap := (list value).

(** An Error object: its name and its message. *)
Record exn := JsError { err_name : string; err_message : string }.

#[global] Instance exn_eq_dec : EqDecision exn.
Proof. solve_decision. Defined.

(** Error.prototype.toString *)
Definition exn_toString (e : exn) : string :=
  if bool_decide (err_message e = "") then err_name e
  else if bool_decide (err_name e = "") then err_message e
  else err_name e +:+ ": " +:+ err_message e.

(** The completion of an evaluation: a value, a thrown exception, or the
    model's recursion bound reached. *)
Inductive completion (A : Type) :=
| Normal (a : A)
| Throw (e : exn)
| OutOfFuel.
Arguments Normal {A} a.
Arguments Throw {A} e.
Arguments OutOfFuel {A}.

Definition bind {A B} (c : completion A) (k : A -> completion B) : completion B :=
  match c with
  | Normal a => k a
  | Throw e => Throw e
  | OutOfFuel => OutOfFuel
  end.

Notation "'let*' x ':=' c 'in' k" := (bind c (fun x => k))
  (at level 10, x name, c at level 100, k at level 200).

(** ToBoolean *)
Definition truthy (v : value) : bool :=
  match v with
  | VUndefined | VNull => false
  | VBool b => b
  | VNum n =>
      match n with
      | S754_zero _ | S754_nan => false
      | _ => true
      end
  | VStr s => negb (bool_decide (s = ""))
  | _ => true
  end.

(** A parameter with a default: the default applies when the argument is
    [undefined]. *)
Definition default_arg (v d : value) : value :=
  match v with
  | VUndefined => d
  | _ => v
  end.

(** *** Property keys *)

(** The code of a character, and the character of a code. *)
Definition code (c : ascii) : Z := Z.of_N (N_of_ascii c).
Definition chr (n : Z) : ascii := ascii_of_N (Z.to_N n).

Definition is_digit (c : ascii) : bool := (48 <=? code c) && (code c <=? 57).

Fixpoint digits_value (acc : Z) (s : string) : Z :=
  match s with
  | EmptyString => acc
  | String c s' => digits_value (10 * acc + (code c - 48)) s'
  end.

Fixpoint all_digits (s : string) : bool :=
  match s with
  | EmptyString => true
  | String c s' => is_digit c && all_digits s'
  end.

(** An array index is a canonical numeric string below [2 ^ 32 - 1]. *)
Definition array_index (k : string) : option Z :=
  match k with
  | EmptyString => None
  | String c rest =>
      if all_digits k
         && (negb (bool_decide (c = "0"%char)) || bool_decide (rest = ""))
         && (String.length k <=? 10)%nat
         && (digits_value 0 k <? 2 ^ 32 - 1)
      then Some (digits_value 0 k)
      else None
  end.

(** Does key [k] come before key [k'] when [k] is created after [k']? *)
Definition key_before (k k' : string) : bool :=
  match array_index k, array_index k' with
  | Some i, Some i' => i <? i'
  | Some _, None => true
  | None, _ => false
  end.

Fixpoint has_key (k : string) (props : list (string * value)) : bool :=
  match props with
  | [] => false
  | (k', _) :: rest => bool_decide (k = k') || has_key k rest
  end.

Fixpoint get_prop (k : string) (props : list (string * value)) : value :=
  match props with
  | [] => VUndefined
  | (k', v) :: rest => if bool_decide (k = k') then v else get_prop k rest
  end.

Fixpoint replace_prop (k : string) (v : value) (props : list (string * value))
  : list (string * value) :=
  match props with
  | [] => []
  | (k', v') :: rest =>
      if bool_decide (k = k') then (k', v) :: rest
      else (k', v') :: replace_prop k v rest
  end.

Fixpoint insert_prop (k : string) (v : value) (props : list (string * value))
  : list (string * value) :=
  match props with
  | [] => [(k, v)]
  | (k', v') :: rest =>
      if key_before k k' then (k, v) :: (k', v') :: rest
      else (k', v') :: insert_prop k v rest
  end.

(** CreateDataProperty: an existing key keeps its place and takes the new
    value; a new key goes to its place in the key order. *)
Definition define_prop (props : list (string * value)) (kv : string * value)
  : list (string * value) :=
  if has_key (fst kv) props then replace_prop (fst kv) (snd kv) props
  else insert_prop (fst kv) (snd kv) props.

(** An object literal [{ k1: v1, ..., kn: vn }]. *)
Definition object_literal (kvs : list (string * value)) : list (string * value) :=
  fold_left define_prop kvs [].

Fixpoint index_from (i : nat) (l : list value) : list (string * value) :=
  match l with
  | [] => []
  | x :: l' => (pretty i, x) :: index_from (S i) l'
  end.

Fixpoint string_chars (s : string) : list value :=
  match s with
  | EmptyString => []
  | String c s' => VStr (String c EmptyString) :: string_chars s'
  end.

(** The own enumerable properties a spread [...v] copies (CopyDataProperties):
    none for [undefined], [null], a boolean or a number; the characters of a
    string and the elements of an array under their indices. *)
Definition own_props (h : heap) (v : value) : list (string * value) :=
  let direct (v : value) :=
    match v with
    | VObj props => props
    | VArr elems => index_from 0 elems
    | VStr s => index_from 0 (string_chars s)
    | _ => []
    end in
  match v with
  | VRef a => from_option direct [] (h !! a)
  | _ => direct v
  end.

(** ** JSON.stringify *)

Definition hex_digit (n : Z) : ascii :=
  chr (if n <? 10 then 48 + n else 87 + n).

(** QuoteJSONString, one character. *)
Definition quote_char (c : ascii) : string :=
  let n := code c in
  if (n =? 8) then "\b"
  else if (n =? 9) then "\t"
  else if (n =? 10) then "\n"
  else if (n =? 12) then "\f"
  else if (n =? 13) then "\r"
  else if (n =? 34) then String "\" (String "034" EmptyString)
  else if (n =? 92) then "\\"
  else if (n <? 32) then
    "\u00" +:+ String (hex_digit (n / 16)) (String (hex_digit (n mod 16)) EmptyString)
  else String c EmptyString.

Fixpoint quote_chars (s : string) : string :=
  match s with
  | EmptyString => EmptyString
  | String c s' => quote_char c +:+ quote_chars s'
  end.

Definition dquote : string := String "034" EmptyString.

Definition QuoteJSONString (s : string) : string :=
  dquote +:+ quote_chars s +:+ dquote.

Definition circular : exn :=
  JsError "TypeError" "Converting circular structure to JSON".

(** SerializeJSONArray, given the serializer of an element: an element
    without a JSON text is written [null]. *)
Definition serialize_items (f : value -> completion (option string))
  : list value -> completion (list string) :=
  fix items (l : list value) : completion (list string) :=
    match l with
    | [] => Normal []
    | x :: l' =>
        let* o := f x in
        let* r := items l' in
        Normal (from_option id "null" o :: r)
    end.

(** SerializeJSONObject, given the serializer of a property value: a
    property without a JSON text is left out. *)
Definition serialize_members (f : value -> completion (option string))
  : list (string * value) -> completion (list string) :=
  fix members (l : list (string * value)) : completion (list string) :=
    match l with
    | [] => Normal []
    | kx :: l' =>
        let* o := f (snd kx) in
        let* r := members l' in
        Normal (match o with
                | Some str => (QuoteJSONString (fst kx) +:+ ":" +:+ str) :: r
                | None => r
                end)
    end.

Section Serialize.
Variable h : heap.

(** SerializeJSONProperty, without replacer or indentation.  [stack] holds
    the store objects being serialized; meeting one of them again is the
    circular structure.  [None] is the [undefined] result.  [fuel] bounds
    the number of references followed. *)
Fixpoint SerializeJSONProperty (fuel : nat)
  : list addr -> value -> completion (option string) :=
  fix go (stack : list addr) (v : value) {struct v}
    : completion (option string) :=
    match v with
    | VUndefined => Normal None
    | VNull => Normal (Some "null")
    | VBool true => Normal (Some "true")
    | VBool false => Normal (Some "false")
    | VNum n => Normal (Some (if is_finite n then toString n else "null"))
    | VStr s => Normal (Some (QuoteJSONString s))
    | VArr elems =>
        let* parts := serialize_items (go stack) elems in
        Normal (Some ("[" +:+ String.concat "," parts +:+ "]"))
    | VObj props =>
        let* parts := serialize_members (go stack) props in
        Normal (Some ("{" +:+ String.concat "," parts +:+ "}"))
    | VRef a =>
        if bool_decide (a ∈ stack) then Throw circular
        else
          match h !! a with
          | None => Normal None
          | Some o =>
              match fuel with
              | O => OutOfFuel
              | S fuel' => SerializeJSONProperty fuel' (a :: stack) o
              end
          end
    end.

(** JSON.stringify(v): one reference can be followed per store object. *)
Definition JSON_stringify (v : value) : completion (option string) :=
  SerializeJSONProperty (List.length h) [] v.

End Serialize.

(** ** JSON.parse *)

Definition syntax_error : exn :=
  JsError "SyntaxError" "Unexpected token in JSON".

Definition is_ws (c : ascii) : bool :=
  let n := code c in
  (n =? 32) || (n =? 9) || (n =? 10) || (n =? 13).

Fixpoint skip_ws (s : string) : string :=
  match s with
  | String c s' => if is_ws c then skip_ws s' else s
  | EmptyString => EmptyString
  end.

Fixpoint strip_prefix (p s : string) : option string :=
  match p, s with
  | EmptyString, _ => Some s
  | String a p', String b s' => if Ascii.eqb a b then strip_prefix p' s' else None
  | String _ _, EmptyString => None
  end.

(** *** Strings *)

Definition hex_value (c : ascii) : option Z :=
  let n := code c in
  if (48 <=? n) && (n <=? 57) then Some (n - 48)
  else if (65 <=? n) && (n <=? 70) then Some (n - 55)
  else if (97 <=? n) && (n <=? 102) then Some (n - 87)
  else None.

Definition hex4 (a b c d : ascii) : option Z :=
  match hex_value a, hex_value b, hex_value c, hex_value d with
  | Some x, Some y, Some z, Some w => Some (((x * 16 + y) * 16 + z) * 16 + w)
  | _, _, _, _ => None
  end.

(** The UTF-8 bytes of a code point: strings hold UTF-8 text. *)
Definition utf8 (n : Z) : string :=
  let byte (k : Z) := chr k in
  if (n <? 128) then String (byte n) EmptyString
  else if (n <? 2048) then
    String (byte (192 + n / 64)) (String (byte (128 + n mod 64)) EmptyString)
  else if (n <? 65536) then
    String (byte (224 + n / 4096))
      (String (byte (128 + (n / 64) mod 64))
         (String (byte (128 + n mod 64)) EmptyString))
  else
    String (byte (240 + n / 262144))
      (String (byte (128 + (n / 4096) mod 64))
         (String (byte (128 + (n / 64) mod 64))
            (String (byte (128 + n mod 64)) EmptyString))).

Definition simple_escape (c : ascii) : option ascii :=
  let n := code c in
  if (n =? 34) || (n =? 92) || (n =? 47) then Some c
  else if (n =? 98) then Some (chr 8)
  else if (n =? 102) then Some (chr 12)
  else if (n =? 110) then Some (chr 10)
  else if (n =? 114) then Some (chr 13)
  else if (n =? 116) then Some (chr 9)
  else None.

Definition is_high_surrogate (n : Z) : bool := (55296 <=? n) && (n <? 56320).
Definition is_low_surrogate (n : Z) : bool := (56320 <=? n) && (n <? 57344).

Definition prepend (p : string) (r : option (string * string)) : option (string * string) :=
  match r with
  | Some (str, rest) => Some (p +:+ str, rest)
  | None => None
  end.

(** The characters of a string literal after its opening quote, up to and
    including the closing quote: the string denoted and the text that
    follows. *)
Fixpoint parse_chars (s : string) : option (string * string) :=
  match s with
  | EmptyString => None
  | String c s1 =>
      if (code c =? 34) then Some (EmptyString, s1)
      else if (code c =? 92) then
        match s1 with
        | EmptyString => None
        | String e s2 =>
            match simple_escape e with
            | Some ch => prepend (String ch EmptyString) (parse_chars s2)
            | None =>
                if (code e =? 117) then
                  match s2 with
                  | String a (String b (String c' (String d s3))) =>
                      match hex4 a b c' d with
                      | None => None
                      | Some hi =>
                          if is_high_surrogate hi then
                            match s3 with
                            | String b1 (String b2 (String x (String y (String z (String w s4))))) =>
                                match hex4 x y z w with
                                | Some lo =>
                                    if is_low_surrogate lo
                                       && (code b1 =? 92) && (code b2 =? 117)
                                    then prepend
                                           (utf8 (65536 + (hi - 55296) * 1024 + (lo - 56320)))
                                           (parse_chars s4)
                                    else prepend (utf8 hi) (parse_chars s3)
                                | None => prepend (utf8 hi) (parse_chars s3)
                                end
                            | _ => prepend (utf8 hi) (parse_chars s3)
                            end
                          else prepend (utf8 hi) (parse_chars s3)
                      end
                  | _ => None
                  end
                else None
            end
        end
      else if (code c <? 32) then None
      else prepend (String c EmptyString) (parse_chars s1)
  end.

(** *** Numbers *)

Definition is_numchar (c : ascii) : bool :=
  let n := code c in
  is_digit c || (n =? 43) || (n =? 45) || (n =? 46)
  || (n =? 69) || (n =? 101).

Fixpoint span (f : ascii -> bool) (s : string) : string * string :=
  match s with
  | EmptyString => (EmptyString, EmptyString)
  | String c s' =>
      if f c then let '(a, b) := span f s' in (String c a, b)
      else (EmptyString, s)
  end.

(** The integer part: one or more digits, without a leading zero. *)
Definition valid_int (d : string) : bool :=
  match d with
  | EmptyString => false
  | String c rest => negb (Ascii.eqb c "0") || bool_decide (rest = "")
  end.

(** The fraction, when there is one: the digits after the point. *)
Definition parse_frac (s : string) : option (string * string) :=
  match s with
  | String c s' =>
      if (code c =? 46) then
        let '(d, rest) := span is_digit s' in
        if bool_decide (d = "") then None else Some (d, rest)
      else Some (EmptyString, s)
  | EmptyString => Some (EmptyString, s)
  end.

(** The exponent, when there is one; nothing may follow it. *)
Definition parse_exp (s : string) : option Z :=
  match s with
  | EmptyString => Some 0
  | String c s' =>
      if (code c =? 101) || (code c =? 69) then
        let '(neg, s'') :=
          match s' with
          | String sg t =>
              if (code sg =? 45) then (true, t)
              else if (code sg =? 43) then (false, t)
              else (false, s')
          | EmptyString => (false, s')
          end in
        if all_digits s'' && negb (bool_decide (s'' = ""))
        then Some (if neg then - digits_value 0 s'' else digits_value 0 s'')
        else None
      else None
  end.

(** The number a JSON number text denotes. *)
Definition number_of_lexeme (s : string) : option number :=
  let '(neg, s1) :=
    match s with
    | String c t => if (code c =? 45) then (true, t) else (false, s)
    | EmptyString => (false, s)
    end in
  let '(int, s2) := span is_digit s1 in
  if valid_int int then
    match parse_frac s2 with
    | None => None
    | Some (frac, s3) =>
        match parse_exp s3 with
        | None => None
        | Some e =>
            let x := of_decimal (digits_value 0 (int +:+ frac))
                                (e - Z.of_nat (String.length frac)) in
            Some (if neg then SFopp x else x)
        end
    end
  else None.

Definition parse_number (s : string) : option (number * string) :=
  let '(lexeme, rest) := span is_numchar s in
  match number_of_lexeme lexeme with
  | Some n => Some (n, rest)
  | None => None
  end.

(** *** Values *)

Definition of_option {A} (o : option A) : completion A :=
  match o with
  | Some a => Normal a
  | None => Throw syntax_error
  end.

Definition starts_with (c : ascii) (s : string) : bool :=
  match s with
  | String c' _ => Ascii.eqb c c'
  | EmptyString => false
  end.

Definition tail (s : string) : string :=
  match s with
  | String _ s' => s'
  | EmptyString => EmptyString
  end.

(** A value and the text after it; the elements of an array after its
    opening bracket; the members of an object after its opening brace. *)
Fixpoint parse_value (fuel : nat) (s : string) {struct fuel}
  : completion (value * string) :=
  match fuel with
  | O => OutOfFuel
  | S fuel' =>
      let s := skip_ws s in
      if starts_with "{" s then
        let s1 := skip_ws (tail s) in
        if starts_with "}" s1 then Normal (VObj [], tail s1)
        else
          let* r := parse_members fuel' s1 in
          Normal (VObj (object_literal (fst r)), snd r)
      else if starts_with "[" s then
        let s1 := skip_ws (tail s) in
        if starts_with "]" s1 then Normal (VArr [], tail s1)
        else
          let* r := parse_elems fuel' s1 in
          Normal (VArr (fst r), snd r)
      else if starts_with "034" s then
        let* r := of_option (parse_chars (tail s)) in
        Normal (VStr (fst r), snd r)
      else
        match strip_prefix "true" s, strip_prefix "false" s, strip_prefix "null" s with
        | Some rest, _, _ => Normal (VBool true, rest)
        | _, Some rest, _ => Normal (VBool false, rest)
        | _, _, Some rest => Normal (VNull, rest)
        | None, None, None =>
            let* r := of_option (parse_number s) in
            Normal (VNum (fst r), snd r)
        end
  end
with parse_elems (fuel : nat) (s : string) {struct fuel}
  : completion (list value * string) :=
  match fuel with
  | O => OutOfFuel
  | S fuel' =>
      let* r := parse_value fuel' s in
      let s1 := skip_ws (snd r) in
      if starts_with "," s1 then
        let* r' := parse_elems fuel' (tail s1) in
        Normal (fst r :: fst r', snd r')
      else if starts_with "]" s1 then Normal ([fst r], tail s1)
      else Throw syntax_error
  end
with parse_members (fuel : nat) (s : string) {struct fuel}
  : completion (list (string * value) * string) :=
  match fuel with
  | O => OutOfFuel
  | S fuel' =>
      let s := skip_ws s in
      if starts_with "034" s then
        let* k := of_option (parse_chars (tail s)) in
        let s1 := skip_ws (snd k) in
        if starts_with ":" s1 then
          let* r := parse_value fuel' (tail s1) in
          let s2 := skip_ws (snd r) in
          if starts_with "," s2 then
            let* r' := parse_members fuel' (tail s2) in
            Normal ((fst k, fst r) :: fst r', snd r')
          else if starts_with "}" s2 then Normal ([(fst k, fst r)], tail s2)
          else Throw syntax_error
        else Throw syntax_error
      else Throw syntax_error
  end.

(** JSON.parse(text): one value and nothing but white space after it. *)
Definition JSON_parse (text : string) : completion value :=
  let* r := parse_value (2 * String.length text + 1) text in
  if bool_decide (skip_ws (snd r) = "") then Normal (fst r) else Throw syntax_error.

(** ** Values that JSON keeps *)

Fixpoint string_forall (f : ascii -> bool) (s : string) : bool :=
  match s with
  | EmptyString => true
  | String c s' => f c && string_forall f s'
  end.

(** A finite number whose decimal text [JSON.parse] reads back as the same
    number. *)
Definition number_stable (n : number) : bool :=
  is_finite n && string_forall is_numchar (toString n)
  && bool_decide (number_of_lexeme (toString n) = Some n).

(** Keys in the order an object holds them: no key twice, and no key that
    belongs before an earlier one. *)
Fixpoint key_sorted (ks : list string) : bool :=
  match ks with
  | [] => true
  | k :: rest =>
      forallb (fun k' => negb (key_before k' k) && negb (bool_decide (k = k'))) rest
      && key_sorted rest
  end.

(** A value [JSON.parse] gives back from its JSON text: no [undefined], no
    store reference, numbers that are stable, objects with their keys in
    order. *)
Fixpoint json_stable (v : value) : bool :=
  match v with
  | VNull | VBool _ | VStr _ => true
  | VNum n => number_stable n
  | VArr elems => forallb json_stable elems
  | VObj props =>
      forallb (fun kx => json_stable (snd kx)) props && key_sorted (map fst props)
  | VUndefined | VRef _ => false
  end.

(** What may follow a value inside a JSON text. *)
Definition delimited (rest : string) : Prop :=
  match rest with
  | EmptyString => True
  | String c _ => c = ","%char \/ c = "]"%char \/ c = "}"%char
  end.

(** [text] is the JSON text of [v], and parsing it gives [v] back. *)
Definition roundtrips (v : value) (text : string) : Prop :=
  (forall h fuel stack, SerializeJSONProperty h fuel stack v = Normal (Some text))
  /\ (forall rest, delimited rest ->
        exists fuel, parse_value fuel (text +:+ rest) = Normal (v, rest)).

(** The members of an object that have a JSON text: a property whose value
    is [undefined] has none. *)
Definition image_members (f : value -> value)
  : list (string * value) -> list (string * value) :=
  fix go (l : list (string * value)) : list (string * value) :=
    match l with
    | [] => []
    | kx :: l' =>
        match snd kx with
        | VUndefined => go l'
        | _ => (fst kx, f (snd kx)) :: go l'
        end
    end.

(** The value whose JSON text is that of [v]: properties without a text are
    left out, elements without one and numbers that are not finite are
    [null]. *)
Fixpoint json_image (v : value) : value :=
  match v with
  | VNum n => if is_finite n then VNum n else VNull
  | VArr elems =>
      VArr (map (fun x => match x with
                          | VUndefined => VNull
                          | _ => json_image x
                          end) elems)
  | VObj props => VObj (image_members json_image props)
  | _ => v
  end.

(** A property value the JSON text accounts for: [undefined], or a value
    whose image is stable. *)
Definition json_kept (v : value) : bool :=
  match v with
  | VUndefined => true
  | _ => json_stable (json_image v)
  end.

(** A character that [JSON.stringify] writes as it is. *)
Definition plain_char (c : ascii) : bool :=
  (32 <=? code c) && negb (code c =? 34) && negb (code c =? 92).

(** A key that is neither an array index nor [action]. *)
Definition beside_action (k : string) : bool :=
  negb (bool_decide (is_Some (array_index k))) && negb (bool_decide (k = "action")).

(** ** URLs

    The record a [new URL(input)] holds, with the getters the client reads.
    The [protocol] getter returns the scheme followed by a colon. *)

Record URL := {
  url_scheme : string;
  url_hostname : string;
  url_port : string;
  url_pathname : string
}.

Definition protocol (u : URL) : string := url_scheme u +:+ ":".
Definition hostname (u : URL) : string := url_hostname u.
Definition port (u : URL) : string := url_port u.
Definition pathname (u : URL) : string := url_pathname u.

Definition invalid_url : exn := JsError "TypeError" "Invalid URL".

(** ** Promises and the transports *)

(** A promise settles once: [resolve] and [reject] change a pending promise
    only. *)
Inductive promise :=
| Pending
| Resolved (v : value)
| Rejected (e : exn).

Definition resolve (v : value) (p : promise) : promise :=
  match p with
  | Pending => Resolved v
  | _ => p
  end.

Definition reject (e : exn) (p : promise) : promise :=
  match p with
  | Pending => Rejected e
  | _ => p
  end.

(** The two transport modules of the runtime. *)
Inductive transport_lib := http | https.

(** The options object handed to [lib.request]; [headers] is the property of
    that name, which the source never sets. *)
Record requestOptions := {
  opt_hostname : string;
  opt_port : string;
  opt_method : string;
  opt_path : string;
  opt_headers : option (list (string * string))
}.

(** What the client does to the network. *)
Inductive io :=
| IoRequest (lib : transport_lib) (opts : requestOptions)
| IoWrite (data : value)
| IoEnd
| IoPost (url : string) (data : value).

(** What the network does after the response callback has run: a chunk of
    the body arrives (given as the text [join] makes of it), the body ends,
    or the request emits an error. *)
Inductive event :=
| EvData (chunk : string)
| EvEnd
| EvError (e : exn).

(** What the network answers to a request: an error before any response, or
    a response with its status code followed by events. *)
Inductive transport :=
| NetError (e : exn)
| NetResponse (statusCode : Z) (events : list event).

(** ** Buffers

    The client sets no encoding on the response, so a chunk of the body is a
    [Buffer], a sequence of bytes.  Its text is what [toString] makes of it:
    the bytes read as UTF-8, with U+FFFD written for every maximal part of
    an ill-formed sequence, as the decoder of the Encoding standard does. *)
Definition Buffer : Type := list Byte.byte.

(** Buffer.from(s): the UTF-8 bytes of a string. *)
Definition Buffer_from (s : string) : Buffer := list_byte_of_string s.

Definition replacement : string := utf8 65533.

(** The decoder between two bytes: the bytes of the sequence it has begun,
    how many more that sequence needs, and the bounds of the next one. *)
Record utf8_decoder := {
  dec_seen : string;
  dec_needed : nat;
  dec_lower : Z;
  dec_upper : Z
}.

Definition decoder_idle : utf8_decoder :=
  {| dec_seen := ""; dec_needed := 0; dec_lower := 128; dec_upper := 191 |}.

(** A byte read when no sequence is begun. *)
Definition lead_byte (c : ascii) : utf8_decoder * string :=
  let b := code c in
  let begun (n : nat) (lo hi : Z) :=
    ({| dec_seen := String c ""; dec_needed := n; dec_lower := lo; dec_upper := hi |},
     "") in
  if b <=? 127 then (decoder_idle, String c "")
  else if (194 <=? b) && (b <=? 223) then begun 1%nat 128 191
  else if (224 <=? b) && (b <=? 239) then
    begun 2%nat (if b =? 224 then 160 else 128) (if b =? 237 then 159 else 191)
  else if (240 <=? b) && (b <=? 244) then
    begun 3%nat (if b =? 240 then 144 else 128) (if b =? 244 then 143 else 191)
  else (decoder_idle, replacement).

(** A byte read: within a sequence a byte out of bounds ends it as
    ill-formed and is read again as the first of the next. *)
Definition decode_byte (st : utf8_decoder) (c : ascii) : utf8_decoder * string :=
  match dec_needed st with
  | O => lead_byte c
  | S n =>
      if (dec_lower st <=? code c) && (code c <=? dec_upper st) then
        match n with
        | O => (decoder_idle, dec_seen st +:+ String c "")
        | S _ => ({| dec_seen := dec_seen st +:+ String c ""; dec_needed := n;
                     dec_lower := 128; dec_upper := 191 |}, "")
        end
      else (fst (lead_byte c), replacement +:+ snd (lead_byte c))
  end.

Fixpoint decode (st : utf8_decoder) (b : Buffer) : utf8_decoder * string :=
  match b with
  | [] => (st, "")
  | x :: b' =>
      let r := decode_byte st (ascii_of_byte x) in
      let r' := decode (fst r) b' in
      (fst r', snd r +:+ snd r')
  end.

(** buf.toString(): a sequence still begun at the end is ill-formed. *)
Definition Buffer_toString (b : Buffer) : string :=
  let r := decode decoder_idle b in
  snd r +:+ (match dec_needed (fst r) with O => "" | S _ => replacement end).

(** A buffer that does not end inside a sequence of several bytes. *)
Definition ends_whole (b : Buffer) : bool :=
  match dec_needed (fst (decode decoder_idle b)) with O => true | S _ => false end.

(** ** RaiClient *)

Record RaiClient := {
  nodeAddress : string;
  deserializeJSON : value
}.

(** constructor(nodeAddress, deserializeJSON = true) *)
Definition new_RaiClient (nodeAddress : string) (deserializeJSON : value) : RaiClient :=
  {| nodeAddress := nodeAddress;
     deserializeJSON := default_arg deserializeJSON (VBool true) |}.

(** The request descriptor of [_buildRPCReq]. *)
Record rpc_req := { url : string; body : value }.

Definition option_string_value (o : option string) : value :=
  match o with
  | Some s => VStr s
  | None => VUndefined
  end.

(** _buildRPCReq(action, params).  The [catch] wraps what [JSON.stringify]
    threw into [new Error(e)], whose message is [String(e)]. *)
(** The object literal serialized: [{ action: action }], or
    [{ action: action, ...params }] when [params] is not [undefined]. *)
Definition payload (h : heap) (action : value) (params : value)
  : list (string * value) :=
  match params with
  | VUndefined => object_literal [("action", action)]
  | _ => fold_left define_prop (own_props h params) (object_literal [("action", action)])
  end.

Definition _buildRPCReq (this : RaiClient) (h : heap) (action : value) (params : value)
  : completion rpc_req :=
  let url := nodeAddress this +:+ "/" in
  match JSON_stringify h (VObj (payload h action params)) with
  | Normal o => Normal {| url := url; body := option_string_value o |}
  | Throw e => Throw (JsError "Error" (exn_toString e))
  | OutOfFuel => OutOfFuel
  end.

(** The state of one [_send] call: its promise, the [body] array once the
    response callback has created it, what was sent, and the texts handed to
    [JSON.parse]. *)
Record call := {
  settled : promise;
  chunks : option (list string);
  sent : list io;
  parsed : list string
}.

Definition settle (f : promise -> promise) (st : call) : call :=
  {| settled := f (settled st); chunks := chunks st;
     sent := sent st; parsed := parsed st |}.

Definition status_error (statusCode : Z) : exn :=
  JsError "Error" ("Failed to fetch URL. Status code: " +:+ pretty statusCode).

(** The response callback: the status check, then the empty [body] array
    with its two listeners. *)
Definition on_response (statusCode : Z) (st : call) : call :=
  let st' :=
    if (statusCode <? 200) || (299 <? statusCode)
    then settle (reject (status_error statusCode)) st
    else st in
  {| settled := settled st'; chunks := Some [];
     sent := sent st'; parsed := parsed st' |}.

(** response.on("data"): body.push(chunk) *)
Definition on_data (chunk : string) (st : call) : call :=
  match chunks st with
  | Some buf => {| settled := settled st; chunks := Some (buf ++ [chunk])%list;
                   sent := sent st; parsed := parsed st |}
  | None => st
  end.

(** response.on("end") *)
Definition on_end (this : RaiClient) (st : call) : call :=
  match chunks st with
  | None => st
  | Some buf =>
      let data := String.concat "" buf in
      if negb (truthy (deserializeJSON this)) then settle (resolve (VStr data)) st
      else
        let st' := {| settled := settled st; chunks := chunks st;
                      sent := sent st; parsed := (parsed st ++ [data])%list |} in
        match JSON_parse data with
        | Normal v => settle (resolve v) st'
        | Throw e => settle (reject e) st'
        | OutOfFuel => st'
        end
  end.

Definition on_event (this : RaiClient) (st : call) (ev : event) : call :=
  match ev with
  | EvData chunk => on_data chunk st
  | EvEnd => on_end this st
  | EvError e => settle (reject e) st
  end.

(** const lib = url.protocol === "https" ? https : http *)
Definition select_lib (u : URL) : transport_lib :=
  if bool_decide (protocol u = "https") then https else http.

Definition make_requestOptions (u : URL) : requestOptions :=
  {| opt_hostname := hostname u;
     opt_port := port u;
     opt_method := "POST";
     opt_path := pathname u;
     opt_headers := None |}.

Definition start : call :=
  {| settled := Pending; chunks := None; sent := []; parsed := [] |}.

Section Transport.

(** [new URL(input)] of the runtime: [None] when it throws. *)
Variable URL_parse : string -> option URL.

(** _send(method, params = undefined) over the http and https modules.
    [net] is what the network answers if a request is made. *)
Definition _send (this : RaiClient) (h : heap) (method : value) (params : value)
  (net : transport) : call :=
  match _buildRPCReq this h method params with
  | Throw err => settle (reject err) start
  | OutOfFuel => start
  | Normal req =>
      match URL_parse (url req) with
      | None => settle (reject invalid_url) start
      | Some u =>
          let st := {| settled := Pending; chunks := None;
                       sent := [IoRequest (select_lib u) (make_requestOptions u);
                                IoWrite (body req); IoEnd];
                       parsed := [] |} in
          match net with
          | NetError e => settle (reject e) st
          | NetResponse statusCode events =>
              fold_left (on_event this) events (on_response statusCode st)
          end
      end
  end.

End Transport.

(** *** The client built on the request library *)

(** What the request library hands to its callback, and with which [this]. *)
Record request_reply := {
  reply_this : value;
  reply_err : option exn;
  reply_data : string
}.

(** Reading a property of a value that is not a store reference. *)
Definition get (v : value) (k : string) : value :=
  match v with
  | VObj props => get_prop k props
  | _ => VUndefined
  end.

(** _send(method, params = undefined) of the client that posts with the
    request library.  The callback is a [function], so the
    [this.deserializeJSON] it reads is a property of the callback's own
    [this]. *)
Definition _send_request (this : RaiClient) (h : heap) (method : value) (params : value)
  (net : request_reply) : call :=
  match _buildRPCReq this h method params with
  | Throw err => settle (reject err) start
  | OutOfFuel => start
  | Normal req =>
      let st := {| settled := Pending; chunks := None;
                   sent := [IoPost (url req) (body req)]; parsed := [] |} in
      match reply_err net with
      | Some err => settle (reject err) st
      | None =>
          if negb (truthy (get (reply_this net) "deserializeJSON"))
          then settle (resolve (VStr (reply_data net))) st
          else
            let st' := {| settled := settled st; chunks := chunks st;
                          sent := sent st; parsed := [reply_data net] |} in
            match JSON_parse (reply_data net) with
            | Normal v => settle (resolve v) st'
            | Throw e => settle (reject e) st'
            | OutOfFuel => st'
            end
      end
  end.

(** *** The public methods

    Each adapter binds its defaults and hands the action and a fresh object
    literal to [_send].  An argument left out is [undefined]. *)

Section Methods.

Variable URL_parse : string -> option URL.
Variable this : RaiClient.
Variable h : heap.

Let this_send := _send URL_parse this h.

Definition account_balance (account : value) :=
  this_send (VStr "account_balance") (VObj (object_literal [("account", account)])).

Definition account_block_count (account : value) :=
  this_send (VStr "account_block_count") (VObj (object_literal [("account", account)])).

Definition account_info (account representative weight pending : value) :=
  let representative := default_arg representative (VBool false) in
  let weight := default_arg weight (VBool false) in
  let pending := default_arg pending (VBool false) in
  this_send (VStr "account_info")
    (VObj (object_literal [("account", account); ("representative", representative);
                           ("weight", weight); ("pending", pending)])).

Definition account_create (wallet work : value) :=
  let work := default_arg work (VBool true) in
  this_send (VStr "account_create")
    (VObj (object_literal [("wallet", wallet); ("work", work)])).

Definition account_history (account count : value) :=
  let count := default_arg count (VNum (of_Z 1)) in
  this_send (VStr "account_history")
    (VObj (object_literal [("account", account); ("count", count)])).

Definition account_move (wallet source accounts : value) :=
  let accounts := default_arg accounts (VArr []) in
  this_send (VStr "account_move")
    (VObj (object_literal [("wallet", wallet); ("source", source);
                           ("accounts", accounts)])).

Definition account_representative_set (wallet account representative work : value) :=
  let work := default_arg work (VBool false) in
  this_send (VStr "account_representative_set")
    (VObj (object_literal [("wallet", wallet); ("account", account);
                           ("representative", representative); ("work", work)])).

Definition accounts_create (accounts count work : value) :=
  let count := default_arg count (VNum (of_Z 1)) in
  let work := default_arg work (VBool false) in
  this_send (VStr "accounts_create")
    (VObj (object_literal [("accounts", accounts); ("count", count)])).

Definition accounts_pending_params (accounts count threshold source : value) : value :=
  let count := default_arg count (VNum (of_Z 1)) in
  let threshold := default_arg threshold (VNum (of_Z 1000000000000000000000000)) in
  let source := default_arg source (VBool false) in
  VObj (object_literal [("accounts", accounts); ("count", count);
                        ("threshold", threshold); ("source", source)]).

Definition accounts_pending (accounts count threshold source : value) :=
  this_send (VStr "accounts_pending")
    (accounts_pending_params accounts count threshold source).

Definition available_supply :=
  this_send (VStr "available_supply") VUndefined.

Definition blocks_info (hashes source pending : value) :=
  let source := default_arg source (VBool false) in
  let pending := default_arg pending (VBool false) in
  this_send (VStr "blocks_info")
    (VObj (object_literal [("hashes", hashes); ("source", source);
                           ("pending", pending)])).

Definition block_count :=
  this_send (VStr "block_count") VUndefined.

Definition chain (block count : value) :=
  let count := default_arg count (VNum (of_Z 1)) in
  this_send (VStr "chain") (VObj (object_literal [("block", block); ("count", count)])).

Definition ledger (account count representative weight pending sorting : value) :=
  let count := default_arg count (VNum (of_Z 1)) in
  let representative := default_arg representative (VBool false) in
  let weight := default_arg weight (VBool false) in
  let pending := default_arg pending (VBool false) in
  let sorting := default_arg sorting (VBool false) in
  this_send (VStr "ledger")
    (VObj (object_literal [("account", account); ("count", count);
                           ("representative", representative); ("weight", weight);
                           ("pending", pending); ("sorting", sorting)])).

Definition receive_minimum_set :=
  this_send (VStr "receive_minimum_set") VUndefined.

Definition representatives (count sorting : value) :=
  let count := default_arg count (VNum (of_Z 1)) in
  let sorting := default_arg sorting (VBool false) in
  this_send (VStr "representatives") VUndefined.

Definition republish (hash count sources destinations : value) :=
  let count := default_arg count (VNum (of_Z 1)) in
  let sources := default_arg sources VNull in
  let destinations := default_arg destinations VNull in
  this_send (VStr "republish")
    (VObj (object_literal [("hash", hash); ("count", count);
                           ("sources", sources); ("destinations", destinations)])).

Definition send (wallet source destination amount work : value) :=
  let work := default_arg work (VBool false) in
  this_send (VStr "send")
    (VObj (object_literal [("wallet", wallet); ("source", source);
                           ("destination", destination); ("amount", amount);
                           ("work", work)])).

Definition stop :=
  this_send (VStr "stop") VUndefined.

End Methods.

(** ** A URL parser for the examples

    Reads [scheme://host[:port][/path]], which is all the examples need:
    the scheme up to the first colon; the host, with a bracketed IPv6
    literal kept whole; the port, left empty when it is the scheme's
    default; the path, [/] when there is none.  Anything else is refused. *)

Fixpoint split_at (c : ascii) (s : string) : option (string * string) :=
  match s with
  | EmptyString => None
  | String c' s' =>
      if Ascii.eqb c c' then Some (EmptyString, s')
      else match split_at c s' with
           | Some (a, b) => Some (String c' a, b)
           | None => None
           end
  end.

Definition split_host_port (authority : string) : string * string :=
  if starts_with "[" authority then
    match split_at "]" authority with
    | Some (a, b) => (a +:+ "]", tail b)
    | None => (authority, "")
    end
  else
    match split_at ":" authority with
    | Some (a, b) => (a, b)
    | None => (authority, "")
    end.

Definition default_port (scheme : string) : string :=
  if bool_decide (scheme = "http") then "80"
  else if bool_decide (scheme = "https") then "443"
  else "".

Definition basic_URL_parse (input : string) : option URL :=
  match split_at ":" input with
  | None => None
  | Some (scheme, rest) =>
      match strip_prefix "//" rest with
      | None => None
      | Some rest' =>
          let '(authority, path) :=
            match split_at "/" rest' with
            | Some (a, p) => (a, "/" +:+ p)
            | None => (rest', "/")
            end in
          let '(host, prt) := split_host_port authority in
          if bool_decide (scheme = "") || bool_decide (host = "") then None
          else Some {| url_scheme := scheme;
                       url_hostname := host;
                       url_port := if bool_decide (prt = default_port scheme) then "" else prt;
                       url_pathname := path |}
      end
  end.

(** ** Example inputs *)

(** JSON texts are written with an apostrophe for each double quote. *)
Fixpoint dq (s : string) : string :=
  match s with
  | EmptyString => EmptyString
  | String c s' => String (if Ascii.eqb c "'" then "034"%char else c) (dq s')
  end.

Definition test_client : RaiClient := new_RaiClient "xrbNodeAddress" VUndefined.
Definition node_client : RaiClient := new_RaiClient "http://[::1]:7076" VUndefined.
Definition raw_client : RaiClient := new_RaiClient "http://[::1]:7076" (VBool false).
Definition tls_client : RaiClient := new_RaiClient "https://node.example:7076" VUndefined.

(** A parameter object of the caller that holds itself:
    [const p = {}; p.self = p]. *)
Definition looping_heap : heap := [VObj [("self", VRef 0%nat)]].

Definition block_count_req : rpc_req :=
  {| url := "http://[::1]:7076/"; body := VStr (dq "{'action':'block_count'}") |}.

Definition local_node : URL :=
  {| url_scheme := "http"; url_hostname := "[::1]";
     url_port := "7076"; url_pathname := "/" |}.

(** A request that is made: the builder returned [req] and its url parsed. *)
Definition issued (URL_parse : string -> option URL) (this : RaiClient) (h : heap)
  (method params : value) (req : rpc_req) (u : URL) : Prop :=
  _buildRPCReq this h method params = Normal req /\ URL_parse (url req) = Some u.

(** Does the options object carry a header that names a JSON content
    type? *)
Definition has_json_header (o : requestOptions) : bool :=
  match opt_headers o with
  | None => false
  | Some hs =>
      existsb (fun kv => bool_decide (fst kv = "Content-Type" \/ fst kv = "content-type")
                         && bool_decide (is_Some (index 0 "json" (snd kv)))) hs
  end.

(** The Request instance of the request library, which is the [this] of the
    callback: it copies the options it was given and has no
    [deserializeJSON] property. *)
Definition Request_instance (req : rpc_req) : value :=
  VObj (object_literal [("url", VStr (url req)); ("body", body req);
                        ("method", VStr "POST")]).

(** One answer of the network as each client sees it: a response with a
    status code whose body arrives in chunks and ends.  The client over
    http pushes each chunk and joins them, which takes the text of each
    chunk on its own; the request library concatenates the chunks and takes
    the text of the whole body. *)
Definition http_answer (statusCode : Z) (bufs : list Buffer) : transport :=
  NetResponse statusCode (map EvData (map Buffer_toString bufs) ++ [EvEnd]).

Definition request_answer (req : rpc_req) (bufs : list Buffer) : request_reply :=
  {| reply_this := Request_instance req; reply_err := None;
     reply_data := Buffer_toString (List.concat bufs) |}.

Definition request_failure (req : rpc_req) (e : exn) : request_reply :=
  {| reply_this := Request_instance req; reply_err := Some e; reply_data := "" |}.

(** *** The other public methods *)

Section MoreMethods.

Variable URL_parse : string -> option URL.
Variable this : RaiClient.
Variable h : heap.

Let this_send := _send URL_parse this h.

Definition account_get (key : value) :=
  this_send (VStr "account_get") (VObj (object_literal [("key", key)])).

Definition account_list (wallet : value) :=
  this_send (VStr "account_list") (VObj (object_literal [("wallet", wallet)])).

Definition account_key (account : value) :=
  this_send (VStr "account_key") (VObj (object_literal [("account", account)])).

Definition account_remove (wallet account : value) :=
  this_send (VStr "account_remove")
    (VObj (object_literal [("wallet", wallet);
                           ("account", account)])).

Definition account_representative (account : value) :=
  this_send (VStr "account_representative")
    (VObj (object_literal [("account", account)])).

Definition account_weight (account : value) :=
  this_send (VStr "account_weight") (VObj (object_literal [("account", account)])).

Definition accounts_balances (accounts : value) :=
  this_send (VStr "accounts_balances") (VObj (object_literal [("accounts", accounts)])).

Definition accounts_frontiers (accounts : value) :=
  this_send (VStr "accounts_frontiers")
    (VObj (object_literal [("accounts", accounts)])).

Definition block (hash : value) :=
  this_send (VStr "block") (VObj (object_literal [("hash", hash)])).

Definition blocks (hashes : value) :=
  this_send (VStr "blocks") (VObj (object_literal [("hashes", hashes)])).

Definition block_account (hash : value) :=
  this_send (VStr "block_account") (VObj (object_literal [("hash", hash)])).

Definition block_count_type :=
  this_send (VStr "block_count_type") VUndefined.

Definition bootstrap (address port : value) :=
  this_send (VStr "bootstrap")
    (VObj (object_literal [("address", address);
                           ("port", port)])).

Definition bootstrap_any :=
  this_send (VStr "bootstrap_any") VUndefined.

Definition delegators (account : value) :=
  this_send (VStr "delegators") (VObj (object_literal [("account", account)])).

Definition delegators_count (account : value) :=
  this_send (VStr "delegators_count") (VObj (object_literal [("account", account)])).

Definition deterministic_key (seed index : value) :=
  this_send (VStr "deterministic_key")
    (VObj (object_literal [("seed", seed);
                           ("index", index)])).

Definition frontiers (account count : value) :=
  let count := default_arg count (VNum (of_Z 1)) in
  this_send (VStr "frontiers")
    (VObj (object_literal [("account", account);
                           ("count", count)])).

Definition frontiers_count :=
  this_send (VStr "frontiers_count") VUndefined.

Definition history (hash count : value) :=
  let count := default_arg count (VNum (of_Z 1)) in
  this_send (VStr "history") (VObj (object_literal [("hash", hash); ("count", count)])).

Definition mrai_from_raw (amount : value) :=
  this_send (VStr "mrai_from_raw") (VObj (object_literal [("amount", amount)])).

Definition mrai_to_raw (amount : value) :=
  this_send (VStr "mrai_to_raw") (VObj (object_literal [("amount", amount)])).

Definition krai_from_raw (amount : value) :=
  this_send (VStr "krai_from_raw") (VObj (object_literal [("amount", amount)])).

Definition krai_to_raw (amount : value) :=
  this_send (VStr "krai_to_raw") (VObj (object_literal [("amount", amount)])).

Definition rai_from_raw (amount : value) :=
  this_send (VStr "rai_from_raw") (VObj (object_literal [("amount", amount)])).

Definition rai_to_raw (amount : value) :=
  this_send (VStr "rai_to_raw") (VObj (object_literal [("amount", amount)])).

Definition keepalive (address port : value) :=
  this_send (VStr "keepalive")
    (VObj (object_literal [("address", address);
                           ("port", port)])).

Definition key_create :=
  this_send (VStr "key_create") VUndefined.

Definition key_expand (key : value) :=
  this_send (VStr "key_expand") (VObj (object_literal [("key", key)])).

Definition block_create (type key account representative source : value) :=
  this_send (VStr "block_create")
    (VObj (object_literal [("type", type);
                           ("key", key);
                           ("account", account);
                           ("representative", representative);
                           ("source", source)])).

Definition payment_init (wallet : value) :=
  this_send (VStr "payment_init") (VObj (object_literal [("wallet", wallet)])).

Definition payment_begin (wallet : value) :=
  this_send (VStr "payment_begin") (VObj (object_literal [("wallet", wallet)])).

Definition payment_wait (account amount timeout : value) :=
  this_send (VStr "payment_wait")
    (VObj (object_literal [("account", account);
                           ("amount", amount);
                           ("timeout", timeout)])).

Definition payment_end (account wallet : value) :=
  this_send (VStr "payment_end")
    (VObj (object_literal [("account", account);
                           ("wallet", wallet)])).

Definition process (block : value) :=
  this_send (VStr "process") (VObj (object_literal [("block", block)])).

Definition receive (wallet account block : value) :=
  this_send (VStr "receive")
    (VObj (object_literal [("wallet", wallet);
                           ("account", account);
                           ("block", block)])).

Definition receive_minimum :=
  this_send (VStr "receive_minimum") VUndefined.

Definition wallet_representative (wallet : value) :=
  this_send (VStr "wallet_representative") (VObj (object_literal [("wallet", wallet)])).

Definition wallet_representative_set (wallet representative : value) :=
  this_send (VStr "wallet_representative_set")
    (VObj (object_literal [("wallet", wallet);
                           ("representative", representative)])).

Definition search_pending (wallet : value) :=
  this_send (VStr "search_pending") (VObj (object_literal [("wallet", wallet)])).

Definition search_pending_all :=
  this_send (VStr "search_pending_all") VUndefined.

End MoreMethods.

(** The argument at a position of a call; one that was not passed is
    [undefined]. *)
Definition arg (i : nat) (args : list value) : value := nth i args VUndefined.

(** The public methods of the client by name, each applied to the arguments
    of a call in order. *)
Definition public_methods (URL_parse : string -> option URL) (this : RaiClient)
  (h : heap) : list (string * (list value -> transport -> call)) :=
  [
   ("account_balance", fun a => account_balance URL_parse this h (arg 0 a));
   ("account_block_count", fun a => account_block_count URL_parse this h (arg 0 a));
   ("account_info", fun a => account_info URL_parse this h (arg 0 a) (arg 1 a) (arg 2 a) (arg 3 a));
   ("account_create", fun a => account_create URL_parse this h (arg 0 a) (arg 1 a));
   ("account_get", fun a => account_get URL_parse this h (arg 0 a));
   ("account_history", fun a => account_history URL_parse this h (arg 0 a) (arg 1 a));
   ("account_list", fun a => account_list URL_parse this h (arg 0 a));
   ("account_move", fun a => account_move URL_parse this h (arg 0 a) (arg 1 a) (arg 2 a));
   ("account_key", fun a => account_key URL_parse this h (arg 0 a));
   ("account_remove", fun a => account_remove URL_parse this h (arg 0 a) (arg 1 a));
   ("account_representative", fun a => account_representative URL_parse this h (arg 0 a));
   ("account_representative_set", fun a => account_representative_set URL_parse this h (arg 0 a) (arg 1 a) (arg 2 a) (arg 3 a));
   ("account_weight", fun a => account_weight URL_parse this h (arg 0 a));
   ("accounts_balances", fun a => accounts_balances URL_parse this h (arg 0 a));
   ("accounts_create", fun a => accounts_create URL_parse this h (arg 0 a) (arg 1 a) (arg 2 a));
   ("accounts_frontiers", fun a => accounts_frontiers URL_parse this h (arg 0 a));
   ("accounts_pending", fun a => accounts_pending URL_parse this h (arg 0 a) (arg 1 a) (arg 2 a) (arg 3 a));
   ("available_supply", fun a => available_supply URL_parse this h);
   ("block", fun a => block URL_parse this h (arg 0 a));
   ("blocks", fun a => blocks URL_parse this h (arg 0 a));
   ("blocks_info", fun a => blocks_info URL_parse this h (arg 0 a) (arg 1 a) (arg 2 a));
   ("block_account", fun a => block_account URL_parse this h (arg 0 a));
   ("block_count", fun a => block_count URL_parse this h);
   ("block_count_type", fun a => block_count_type URL_parse this h);
   ("bootstrap", fun a => bootstrap URL_parse this h (arg 0 a) (arg 1 a));
   ("bootstrap_any", fun a => bootstrap_any URL_parse this h);
   ("chain", fun a => chain URL_parse this h (arg 0 a) (arg 1 a));
   ("delegators", fun a => delegators URL_parse this h (arg 0 a));
   ("delegators_count", fun a => delegators_count URL_parse this h (arg 0 a));
   ("deterministic_key", fun a => deterministic_key URL_parse this h (arg 0 a) (arg 1 a));
   ("frontiers", fun a => frontiers URL_parse this h (arg 0 a) (arg 1 a));
   ("frontiers_count", fun a => frontiers_count URL_parse this h);
   ("history", fun a => history URL_parse this h (arg 0 a) (arg 1 a));
   ("mrai_from_raw", fun a => mrai_from_raw URL_parse this h (arg 0 a));
   ("mrai_to_raw", fun a => mrai_to_raw URL_parse this h (arg 0 a));
   ("krai_from_raw", fun a => krai_from_raw URL_parse this h (arg 0 a));
   ("krai_to_raw", fun a => krai_to_raw URL_parse this h (arg 0 a));
   ("rai_from_raw", fun a => rai_from_raw URL_parse this h (arg 0 a));
   ("rai_to_raw", fun a => rai_to_raw URL_parse this h (arg 0 a));
   ("keepalive", fun a => keepalive URL_parse this h (arg 0 a) (arg 1 a));
   ("key_create", fun a => key_create URL_parse this h);
   ("key_expand", fun a => key_expand URL_parse this h (arg 0 a));
   ("ledger", fun a => ledger URL_parse this h (arg 0 a) (arg 1 a) (arg 2 a) (arg 3 a) (arg 4 a) (arg 5 a));
   ("block_create", fun a => block_create URL_parse this h (arg 0 a) (arg 1 a) (arg 2 a) (arg 3 a) (arg 4 a));
   ("payment_init", fun a => payment_init URL_parse this h (arg 0 a));
   ("payment_begin", fun a => payment_begin URL_parse this h (arg 0 a));
   ("payment_wait", fun a => payment_wait URL_parse this h (arg 0 a) (arg 1 a) (arg 2 a));
   ("payment_end", fun a => payment_end URL_parse this h (arg 0 a) (arg 1 a));
   ("process", fun a => process URL_parse this h (arg 0 a));
   ("receive", fun a => receive URL_parse this h (arg 0 a) (arg 1 a) (arg 2 a));
   ("receive_minimum", fun a => receive_minimum URL_parse this h);
   ("receive_minimum_set", fun a => receive_minimum_set URL_parse this h);
   ("representatives", fun a => representatives URL_parse this h (arg 0 a) (arg 1 a));
   ("wallet_representative", fun a => wallet_representative URL_parse this h (arg 0 a));
   ("wallet_representative_set", fun a => wallet_representative_set URL_parse this h (arg 0 a) (arg 1 a));
   ("republish", fun a => republish URL_parse this h (arg 0 a) (arg 1 a) (arg 2 a) (arg 3 a));
   ("search_pending", fun a => search_pending URL_parse this h (arg 0 a));
   ("search_pending_all", fun a => search_pending_all URL_parse this h);
   ("send", fun a => send URL_parse this h (arg 0 a) (arg 1 a) (arg 2 a) (arg 3 a) (arg 4 a));
   ("stop", fun a => stop URL_parse this h)
  ].

(** *** The example program

    [examples.js] builds a client, calls [account_balance] and chains
    [.then(account => console.log("Account balance:", account))] and
    [.catch(this.handleErrors)]. *)

(** A line of the console: a label with a value, or a text. *)
Inductive console_line :=
| LogValue (label : string) (v : value)
| LogText (text : string).

(** A promise with what has been written to the console. *)
Definition chained : Type := promise * list console_line.

(** promise.then(v => console.log(label, v)): the callback runs on a
    resolved promise and returns [undefined]; a rejection passes through. *)
Definition then_log (label : string) (p : chained) : chained :=
  match fst p with
  | Resolved v => (Resolved VUndefined, (snd p ++ [LogValue label v])%list)
  | _ => p
  end.

(** const handleErrors = e => { console.log("\nError: " + e.message); } *)
Definition handleErrors (e : exn) : console_line :=
  LogText (String "010" "Error: " +:+ err_message e).

(** promise.catch(onRejected): a handler that is not a function lets the
    rejection pass through. *)
Definition catch_with (onRejected : option (exn -> console_line)) (p : chained)
  : chained :=
  match onRejected, fst p with
  | Some f, Rejected e => (Resolved VUndefined, (snd p ++ [f e])%list)
  | _, _ => p
  end.

(** The functions that are properties of an object. *)
Definition function_property (k : string) (o : list (string * (exn -> console_line)))
  : option (exn -> console_line) :=
  match find (fun kf => bool_decide (fst kf = k)) o with
  | Some kf => Some (snd kf)
  | None => None
  end.

(** [this] at the top level of the file is [module.exports], to which the
    file assigns nothing: [handleErrors] is a constant of the file, not a
    property of it. *)
Definition module_this : list (string * (exn -> console_line)) := [].

Definition RAI_ADDRESS : string :=
  "xrb_3t6k35gi95xu6tergt6p69ck76ogmitsa8mnijtpxm9fkcm736xtoncuohr3".

Definition example_client : RaiClient := new_RaiClient "http://127.0.0.1:7076" VUndefined.

(** The first chain of the file, given what the network answers. *)
Definition example_account_balance (URL_parse : string -> option URL)
  (net : transport) : chained :=
  catch_with (function_property "handleErrors" module_this)
    (then_log "Account balance:"
       (settled (account_balance URL_parse example_client [] (VStr RAI_ADDRESS) net),
        [])).

(** The same chain with the constant itself as the handler. *)
Definition example_with_handler (URL_parse : string -> option URL)
  (net : transport) : chained :=
  catch_with (Some handleErrors)
    (then_log "Account balance:"
       (settled (account_balance URL_parse example_client [] (VStr RAI_ADDRESS) net),
        [])).

(** The value a key has after the pairs of [l] were defined one after the
    other over an object where it had the value [d]. *)
Definition last_value (k : string) (l : list (string * value)) (d : value) : value :=
  fold_left (fun acc kv => if bool_decide (k = fst kv) then snd kv else acc) l d.

(** What a property after the first adds to the text of an object: a comma,
    its key and the text of its value, or nothing when the value has no
    JSON text. *)
Definition member_text (h : heap) (k : string) (v : value) : string :=
  match JSON_stringify h v with
  | Normal (Some text) => "," +:+ QuoteJSONString k +:+ ":" +:+ text
  | _ => ""
  end.

(** *** The methods of the client built on the request library

    The class has 25 of the methods of the client above, each over its own
    [_send]. *)

Module RequestClient.

Section Methods.

Variable this : RaiClient.
Variable h : heap.

Let this_send := _send_request this h.

Definition account_balance (account : value) :=
  this_send (VStr "account_balance") (VObj (object_literal [("account", account)])).

Definition account_block_count (account : value) :=
  this_send (VStr "account_block_count") (VObj (object_literal [("account", account)])).

Definition account_info (account representative weight pending : value) :=
  let representative := default_arg representative (VBool false) in
  let weight := default_arg weight (VBool false) in
  let pending := default_arg pending (VBool false) in
  this_send (VStr "account_info")
    (VObj (object_literal [("account", account); ("representative", representative);
                           ("weight", weight); ("pending", pending)])).

Definition account_create (wallet work : value) :=
  let work := default_arg work (VBool true) in
  this_send (VStr "account_create")
    (VObj (object_literal [("wallet", wallet); ("work", work)])).

Definition account_get (key : value) :=
  this_send (VStr "account_get") (VObj (object_literal [("key", key)])).

Definition account_history (account count : value) :=
  let count := default_arg count (VNum (of_Z 1)) in
  this_send (VStr "account_history")
    (VObj (object_literal [("account", account); ("count", count)])).

Definition account_list (wallet : value) :=
  this_send (VStr "account_list") (VObj (object_literal [("wallet", wallet)])).

Definition account_move (wallet source accounts : value) :=
  let accounts := default_arg accounts (VArr []) in
  this_send (VStr "account_move")
    (VObj (object_literal [("wallet", wallet); ("source", source);
                           ("accounts", accounts)])).

Definition account_key (account : value) :=
  this_send (VStr "account_key") (VObj (object_literal [("account", account)])).

Definition account_remove (wallet account : value) :=
  this_send (VStr "account_remove")
    (VObj (object_literal [("wallet", wallet);
                           ("account", account)])).

Definition account_representative (account : value) :=
  this_send (VStr "account_representative")
    (VObj (object_literal [("account", account)])).

Definition account_weight (account : value) :=
  this_send (VStr "account_weight") (VObj (object_literal [("account", account)])).

Definition accounts_balances (accounts : value) :=
  this_send (VStr "accounts_balances") (VObj (object_literal [("accounts", accounts)])).

Definition accounts_create (accounts count work : value) :=
  let count := default_arg count (VNum (of_Z 1)) in
  let work := default_arg work (VBool false) in
  this_send (VStr "accounts_create")
    (VObj (object_literal [("accounts", accounts); ("count", count)])).

Definition accounts_frontiers (accounts : value) :=
  this_send (VStr "accounts_frontiers")
    (VObj (object_literal [("accounts", accounts)])).

Definition accounts_pending (accounts count threshold source : value) :=
  this_send (VStr "accounts_pending")
    (accounts_pending_params accounts count threshold source).

Definition available_supply :=
  this_send (VStr "available_supply") VUndefined.

Definition block (hash : value) :=
  this_send (VStr "block") (VObj (object_literal [("hash", hash)])).

Definition blocks (hashes : value) :=
  this_send (VStr "blocks") (VObj (object_literal [("hashes", hashes)])).

Definition blocks_info (hashes source pending : value) :=
  let source := default_arg source (VBool false) in
  let pending := default_arg pending (VBool false) in
  this_send (VStr "blocks_info")
    (VObj (object_literal [("hashes", hashes); ("source", source);
                           ("pending", pending)])).

Definition block_account (hash : value) :=
  this_send (VStr "block_account") (VObj (object_literal [("hash", hash)])).

Definition block_count :=
  this_send (VStr "block_count") VUndefined.

Definition block_count_type :=
  this_send (VStr "block_count_type") VUndefined.

Definition bootstrap (address port : value) :=
  this_send (VStr "bootstrap")
    (VObj (object_literal [("address", address);
                           ("port", port)])).

Definition bootstrap_any :=
  this_send (VStr "bootstrap_any") VUndefined.

End Methods.

(** The public methods of this client by name. *)
Definition public_methods (this : RaiClient) (h : heap)
  : list (string * (list value -> request_reply -> call)) :=
  [
   ("account_balance", fun a => account_balance this h (arg 0 a));
   ("account_block_count", fun a => account_block_count this h (arg 0 a));
   ("account_info", fun a => account_info this h (arg 0 a) (arg 1 a) (arg 2 a) (arg 3 a));
   ("account_create", fun a => account_create this h (arg 0 a) (arg 1 a));
   ("account_get", fun a => account_get this h (arg 0 a));
   ("account_history", fun a => account_history this h (arg 0 a) (arg 1 a));
   ("account_list", fun a => account_list this h (arg 0 a));
   ("account_move", fun a => account_move this h (arg 0 a) (arg 1 a) (arg 2 a));
   ("account_key", fun a => account_key this h (arg 0 a));
   ("account_remove", fun a => account_remove this h (arg 0 a) (arg 1 a));
   ("account_representative", fun a => account_representative this h (arg 0 a));
   ("account_weight", fun a => account_weight this h (arg 0 a));
   ("accounts_balances", fun a => accounts_balances this h (arg 0 a));
   ("accounts_create", fun a => accounts_create this h (arg 0 a) (arg 1 a) (arg 2 a));
   ("accounts_frontiers", fun a => accounts_frontiers this h (arg 0 a));
   ("accounts_pending", fun a => accounts_pending this h (arg 0 a) (arg 1 a) (arg 2 a) (arg 3 a));
   ("available_supply", fun a => available_supply this h);
   ("block", fun a => block this h (arg 0 a));
   ("blocks", fun a => blocks this h (arg 0 a));
   ("blocks_info", fun a => blocks_info this h (arg 0 a) (arg 1 a) (arg 2 a));
   ("block_account", fun a => block_account this h (arg 0 a));
   ("block_count", fun a => block_count this h);
   ("block_count_type", fun a => block_count_type this h);
   ("bootstrap", fun a => bootstrap this h (arg 0 a) (arg 1 a));
   ("bootstrap_any", fun a => bootstrap_any this h)
  ].

End RequestClient.

(** The method of a table that has a name. *)
Definition method_named {A : Type} (name : string) (table : list (string * A))
  : option A :=
  match find (fun nm => bool_decide (fst nm = name)) table with
  | Some nm => Some (snd nm)
  | None => None
  end.

(** Two calls see the same descriptor.  The one built on the request
    library posts nothing or one descriptor.  When it posts nothing, so
    does the other; when it posts a body to a url, the other writes that
    body to the one request it makes to that url, or sends nothing when the
    url is not one [new URL] accepts. *)
Definition same_descriptor (URL_parse : string -> option URL)
  (posted : call) (written : call) : Prop :=
  (sent posted = [] \/ exists url body, sent posted = [IoPost url body])
  /\ (sent posted = [] -> sent written = [])
  /\ (forall url body,
        sent posted = [IoPost url body] ->
        sent written
        = match URL_parse url with
          | Some u => [IoRequest http (make_requestOptions u); IoWrite body; IoEnd]
          | None => []
          end).

(** What a method of that client may do to the network: nothing, or one
    post to the node whose body is a JSON object text that opens with the
    action [name]. *)
Definition posts_action_to (this : RaiClient) (name : string) (st : call) : Prop :=
  sent st = []
  \/ exists tail,
       sent st = [IoPost (nodeAddress this +:+ "/")
                    (VStr (dq "{'action':'" +:+ name +:+ dquote +:+ tail))].

(** What a method may do to the network: nothing, or one request whose
    body is a JSON object text that opens with the action [name]. *)
Definition posts_action (name : string) (st : call) : Prop :=
  sent st = []
  \/ exists u tail,
       sent st = [IoRequest http (make_requestOptions u);
                  IoWrite (VStr (dq "{'action':'" +:+ name +:+ dquote +:+ tail));
                  IoEnd].

(** * Properties *)

(** ** Induction on values *)

Lemma value_ind (P : value -> Prop) :
  P VUndefined -> P VNull -> (forall b, P (VBool b)) -> (forall n, P (VNum n)) ->
  (forall s, P (VStr s)) ->
  (forall elems, Forall P elems -> P (VArr elems)) ->
  (forall props, Forall (fun kx => P (snd kx)) props -> P (VObj props)) ->
  (forall a, P (VRef a)) ->
  forall v, P v.
Proof.
  intros Hu Hn Hb Hnum Hs Harr Hobj Href.
  fix IH 1. intros [| |b|n|s|elems|props|a].
  - exact Hu.
  - exact Hn.
  - apply Hb.
  - apply Hnum.
  - apply Hs.
  - apply Harr. induction elems as [|x l IHl]; constructor; [apply IH|exact IHl].
  - apply Hobj. induction props as [|kx l IHl]; constructor; [apply IH|exact IHl].
  - apply Href.
Qed.

(** ** Numbers and their decimal texts *)

Example toString_examples :
  map toString
    [of_Z 0; of_Z 1; of_Z (-42); of_Z 123; of_Z (10 ^ 20); of_Z (10 ^ 21);
     of_decimal 1 (-1); of_decimal 123456 (-3); of_decimal 1 (-6);
     of_decimal 1 (-7); of_decimal 5 (-324);
     of_decimal 17976931348623157 292; of_Z 9007199254740993;
     SFadd prec emax (of_decimal 1 (-1)) (of_decimal 2 (-1))]
  = ["0"; "1"; "-42"; "123"; "100000000000000000000"; "1e+21";
     "0.1"; "123.456"; "0.000001"; "1e-7"; "5e-324";
     "1.7976931348623157e+308"; "9007199254740992"; "0.30000000000000004"].
Proof. vm_compute. reflexivity. Qed.

Example stable_numbers :
  forallb number_stable
    [of_Z 0; of_Z 1; of_Z (-42); of_Z (10 ^ 21); of_Z (10 ^ 24);
     of_decimal 1 (-1); of_decimal 5 (-324); of_decimal 17976931348623157 292]
  = true
  /\ number_stable (S754_zero true) = false.
Proof. split; vm_compute; reflexivity. Qed.

(** ** JSON.stringify returns or throws *)

Lemma serialize_eq h fuel stack v :
  SerializeJSONProperty h fuel stack v =
  match v with
  | VUndefined => Normal None
  | VNull => Normal (Some "null")
  | VBool true => Normal (Some "true")
  | VBool false => Normal (Some "false")
  | VNum n => Normal (Some (if is_finite n then toString n else "null"))
  | VStr s => Normal (Some (QuoteJSONString s))
  | VArr elems =>
      let* parts := serialize_items (SerializeJSONProperty h fuel stack) elems in
      Normal (Some ("[" +:+ String.concat "," parts +:+ "]"))
  | VObj props =>
      let* parts := serialize_members (SerializeJSONProperty h fuel stack) props in
      Normal (Some ("{" +:+ String.concat "," parts +:+ "}"))
  | VRef a =>
      if bool_decide (a ∈ stack) then Throw circular
      else
        match h !! a with
        | None => Normal None
        | Some o =>
            match fuel with
            | O => OutOfFuel
            | S fuel' => SerializeJSONProperty h fuel' (a :: stack) o
            end
        end
  end.
Proof. destruct fuel, v; reflexivity. Qed.

Lemma serialize_items_total f elems :
  Forall (fun x => f x <> OutOfFuel) elems -> serialize_items f elems <> OutOfFuel.
Proof.
  induction 1 as [|x l Hx _ IH]; simpl; [done|].
  destruct (f x); simpl; [|done|done].
  destruct (serialize_items f l); simpl; done.
Qed.

Lemma serialize_members_total f props :
  Forall (fun kx => f (snd kx) <> OutOfFuel) props ->
  serialize_members f props <> OutOfFuel.
Proof.
  induction 1 as [|x l Hx _ IH]; simpl; [done|].
  destruct (f (snd x)); simpl; [|done|done].
  destruct (serialize_members f l); simpl; done.
Qed.

(** A stack of distinct addresses of the store is no longer than the
    store. *)
Lemma stack_bound (h : heap) (stack : list addr) :
  NoDup stack -> (forall a, a ∈ stack -> (a < length h)%nat) ->
  (length stack <= length h)%nat.
Proof.
  intros Hnd Hin.
  assert (Hl : (length stack <= length (seq 0 (length h)))%nat).
  { apply NoDup_incl_length; [by apply NoDup_ListNoDup|].
    intros a Ha. apply in_seq. apply list_elem_of_In in Ha.
    specialize (Hin a Ha). lia. }
  by rewrite length_seq in Hl.
Qed.

Lemma serialize_total h fuel : forall stack v,
  NoDup stack -> (forall a, a ∈ stack -> (a < length h)%nat) ->
  (length h <= fuel + length stack)%nat ->
  SerializeJSONProperty h fuel stack v <> OutOfFuel.
Proof.
  induction fuel as [|fuel IHfuel]; intros stack v Hnd Hin Hlen;
    induction v as [| |b|n|s|elems IH|props IH|a] using value_ind;
    rewrite serialize_eq; try done; try (by destruct b).
  - pose proof (serialize_items_total _ _ IH) as Ht.
    destruct (serialize_items _ elems); simpl; done.
  - pose proof (serialize_members_total _ _ IH) as Ht.
    destruct (serialize_members _ props); simpl; done.
  - case_bool_decide as Hs; [done|].
    destruct (h !! a) as [o|] eqn:Ho; [|done].
    exfalso. apply lookup_lt_Some in Ho.
    assert (Hb : (length (a :: stack) <= length h)%nat).
    { apply stack_bound; [by apply NoDup_cons_2|].
      intros a' [->|Ha']%elem_of_cons; auto. }
    simpl in Hb, Hlen. lia.
  - pose proof (serialize_items_total _ _ IH) as Ht.
    destruct (serialize_items _ elems); simpl; done.
  - pose proof (serialize_members_total _ _ IH) as Ht.
    destruct (serialize_members _ props); simpl; done.
  - case_bool_decide as Hs; [done|].
    destruct (h !! a) as [o|] eqn:Ho; [|done].
    apply lookup_lt_Some in Ho.
    apply IHfuel.
    + by apply NoDup_cons_2.
    + intros a' [->|Ha']%elem_of_cons; auto.
    + simpl. lia.
Qed.

(** [JSON.stringify] never reaches the recursion bound of the model. *)
Lemma JSON_stringify_total h v : JSON_stringify h v <> OutOfFuel.
Proof.
  apply serialize_total; [constructor| |simpl; lia].
  intros a Ha. by apply elem_of_nil in Ha.
Qed.

(** ** JSON.parse returns or throws *)

Lemma parse_value_S fuel s :
  parse_value (S fuel) s =
  let s := skip_ws s in
  if starts_with "{" s then
    let s1 := skip_ws (tail s) in
    if starts_with "}" s1 then Normal (VObj [], tail s1)
    else
      let* r := parse_members fuel s1 in
      Normal (VObj (object_literal (fst r)), snd r)
  else if starts_with "[" s then
    let s1 := skip_ws (tail s) in
    if starts_with "]" s1 then Normal (VArr [], tail s1)
    else
      let* r := parse_elems fuel s1 in
      Normal (VArr (fst r), snd r)
  else if starts_with "034" s then
    let* r := of_option (parse_chars (tail s)) in
    Normal (VStr (fst r), snd r)
  else
    match strip_prefix "true" s, strip_prefix "false" s, strip_prefix "null" s with
    | Some rest, _, _ => Normal (VBool true, rest)
    | _, Some rest, _ => Normal (VBool false, rest)
    | _, _, Some rest => Normal (VNull, rest)
    | None, None, None =>
        let* r := of_option (parse_number s) in
        Normal (VNum (fst r), snd r)
    end.
Proof. reflexivity. Qed.

Lemma parse_elems_S fuel s :
  parse_elems (S fuel) s =
  let* r := parse_value fuel s in
  let s1 := skip_ws (snd r) in
  if starts_with "," s1 then
    let* r' := parse_elems fuel (tail s1) in
    Normal (fst r :: fst r', snd r')
  else if starts_with "]" s1 then Normal ([fst r], tail s1)
  else Throw syntax_error.
Proof. reflexivity. Qed.

Lemma parse_members_S fuel s :
  parse_members (S fuel) s =
  let s := skip_ws s in
  if starts_with "034" s then
    let* k := of_option (parse_chars (tail s)) in
    let s1 := skip_ws (snd k) in
    if starts_with ":" s1 then
      let* r := parse_value fuel (tail s1) in
      let s2 := skip_ws (snd r) in
      if starts_with "," s2 then
        let* r' := parse_members fuel (tail s2) in
        Normal ((fst k, fst r) :: fst r', snd r')
      else if starts_with "}" s2 then Normal ([(fst k, fst r)], tail s2)
      else Throw syntax_error
    else Throw syntax_error
  else Throw syntax_error.
Proof. reflexivity. Qed.

Lemma length_skip_ws s : (String.length (skip_ws s) <= String.length s)%nat.
Proof.
  induction s as [|c s IH]; simpl; [lia|].
  destruct (is_ws c); simpl; lia.
Qed.

Lemma length_tail s : (String.length (tail s) <= String.length s)%nat.
Proof. destruct s; simpl; lia. Qed.

Lemma length_starts_with c s :
  starts_with c s = true -> String.length s = S (String.length (tail s)).
Proof. by destruct s. Qed.

Lemma length_strip_prefix p : forall s rest,
  strip_prefix p s = Some rest ->
  String.length s = (String.length p + String.length rest)%nat.
Proof.
  induction p as [|a p IH]; intros s rest; simpl.
  - by intros [= ->].
  - destruct s as [|b s]; [done|].
    destruct (Ascii.eqb a b); [|done]. intros H. simpl. by rewrite (IH _ _ H).
Qed.

Lemma length_span f s :
  String.length s = (String.length (fst (span f s)) + String.length (snd (span f s)))%nat.
Proof.
  induction s as [|c s IH]; simpl; [done|].
  destruct (f c); [|done]. destruct (span f s). simpl in *. lia.
Qed.

Lemma length_prepend p r str rest :
  prepend p r = Some (str, rest) -> exists str', r = Some (str', rest).
Proof. destruct r as [[str' rest']|]; simpl; [|done]. intros [= _ ->]. eauto. Qed.

Lemma length_parse_chars : forall n s str rest,
  (String.length s <= n)%nat ->
  parse_chars s = Some (str, rest) -> (String.length rest < String.length s)%nat.
Proof.
  induction n as [|n IH]; intros s str rest Hn; destruct s as [|c s1];
    simpl in *; try done; try lia.
  destruct (code c =? 34); [intros [= _ ->]; lia|].
  destruct (code c =? 92).
  - destruct s1 as [|e s2]; [done|].
    destruct (simple_escape e).
    + intros (str' & H)%length_prepend. apply IH in H; simpl in *; lia.
    + destruct (code e =? 117); [|done].
      destruct s2 as [|a [|b [|c' [|d s3]]]]; simpl; try done.
      destruct (hex4 a b c' d) as [hi|]; [|done].
      remember (prepend (utf8 hi) (parse_chars s3)) as fallback eqn:Hf.
      assert (Hs3 : forall str, fallback = Some (str, rest) ->
                    (String.length rest < S (S (S (S (S (S (String.length s3)))))))%nat).
      { subst fallback. intros str0 (str' & H)%length_prepend.
        apply IH in H; simpl in *; lia. }
      clear Hf.
      destruct (is_high_surrogate hi); [|apply Hs3].
      destruct s3 as [|b1 [|b2 [|x [|y [|z [|w s4]]]]]]; try apply Hs3.
      destruct (hex4 x y z w) as [lo|]; [|apply Hs3].
      destruct (_ && _); [|apply Hs3].
      intros (str' & H)%length_prepend. apply IH in H; simpl in *; lia.
  - destruct (code c <? 32); [done|].
    intros (str' & H)%length_prepend. apply IH in H; simpl in *; lia.
Qed.

Lemma parse_chars_shrinks s str rest :
  parse_chars s = Some (str, rest) -> (String.length rest < String.length s)%nat.
Proof. by apply (length_parse_chars (String.length s)). Qed.

Lemma number_of_lexeme_empty : number_of_lexeme "" = None.
Proof. reflexivity. Qed.

Lemma parse_number_shrinks s n rest :
  parse_number s = Some (n, rest) -> (String.length rest < String.length s)%nat.
Proof.
  unfold parse_number. pose proof (length_span is_numchar s) as Hl.
  destruct (span is_numchar s) as [lexeme rest'] eqn:Hsp. simpl in Hl.
  destruct lexeme as [|c lexeme]; [by rewrite number_of_lexeme_empty|].
  destruct (number_of_lexeme _); [|done]. intros [= _ ->]. simpl in Hl. lia.
Qed.

(** What a parser returns is shorter than what it was given. *)
Lemma parse_shrinks fuel :
  (forall s r, parse_value fuel s = Normal r ->
               (String.length (snd r) < String.length s)%nat)
  /\ (forall s r, parse_elems fuel s = Normal r ->
                  (String.length (snd r) < String.length s)%nat)
  /\ (forall s r, parse_members fuel s = Normal r ->
                  (String.length (snd r) < String.length s)%nat).
Proof.
  induction fuel as [|fuel (IHv & IHe & IHm)]; [by repeat split|].
  split; [|split]; intros s r.
  - rewrite parse_value_S. cbv zeta.
    pose proof (length_skip_ws s) as Hs. revert Hs.
    generalize (skip_ws s). intros s' Hs.
    destruct (starts_with "{" s') eqn:E1.
    { apply length_starts_with in E1.
      pose proof (length_skip_ws (tail s')) as Hs1. revert Hs1.
      generalize (skip_ws (tail s')). intros s1 Hs1.
      destruct (starts_with "}" s1) eqn:E2.
      - apply length_starts_with in E2. intros [= <-]. simpl. lia.
      - destruct (parse_members fuel s1) as [r1| |] eqn:E3; simpl; try done.
        intros [= <-]. simpl. apply IHm in E3. lia. }
    destruct (starts_with "[" s') eqn:E2.
    { apply length_starts_with in E2.
      pose proof (length_skip_ws (tail s')) as Hs1. revert Hs1.
      generalize (skip_ws (tail s')). intros s1 Hs1.
      destruct (starts_with "]" s1) eqn:E3.
      - apply length_starts_with in E3. intros [= <-]. simpl. lia.
      - destruct (parse_elems fuel s1) as [r1| |] eqn:E4; simpl; try done.
        intros [= <-]. simpl. apply IHe in E4. lia. }
    destruct (starts_with "034" s') eqn:E3.
    { apply length_starts_with in E3.
      destruct (parse_chars (tail s')) as [[str rest]|] eqn:E4; simpl; try done.
      intros [= <-]. simpl. apply parse_chars_shrinks in E4. lia. }
    destruct (strip_prefix "true" s') as [rest|] eqn:E4.
    { apply length_strip_prefix in E4. intros [= <-]. simpl in *. lia. }
    destruct (strip_prefix "false" s') as [rest|] eqn:E5.
    { apply length_strip_prefix in E5. intros [= <-]. simpl in *. lia. }
    destruct (strip_prefix "null" s') as [rest|] eqn:E6.
    { apply length_strip_prefix in E6. intros [= <-]. simpl in *. lia. }
    destruct (parse_number s') as [[n rest]|] eqn:E7; simpl; try done.
    intros [= <-]. simpl. apply parse_number_shrinks in E7. lia.
  - rewrite parse_elems_S.
    destruct (parse_value fuel s) as [r1| |] eqn:E1; simpl; try done.
    apply IHv in E1.
    pose proof (length_skip_ws (snd r1)) as Hs1. revert Hs1.
    generalize (skip_ws (snd r1)). intros s1 Hs1.
    destruct (starts_with "," s1) eqn:E2.
    { apply length_starts_with in E2.
      destruct (parse_elems fuel (tail s1)) as [r2| |] eqn:E3; simpl; try done.
      intros [= <-]. simpl. apply IHe in E3. lia. }
    destruct (starts_with "]" s1) eqn:E3; [|done].
    apply length_starts_with in E3. intros [= <-]. simpl. lia.
  - rewrite parse_members_S. cbv zeta.
    pose proof (length_skip_ws s) as Hs. revert Hs.
    generalize (skip_ws s). intros s' Hs.
    destruct (starts_with "034" s') eqn:E1; [|done].
    apply length_starts_with in E1.
    destruct (parse_chars (tail s')) as [[k rest]|] eqn:E2; simpl; try done.
    apply parse_chars_shrinks in E2.
    pose proof (length_skip_ws rest) as Hs1. revert Hs1.
    generalize (skip_ws rest). intros s1 Hs1.
    destruct (starts_with ":" s1) eqn:E3; [|done].
    apply length_starts_with in E3.
    destruct (parse_value fuel (tail s1)) as [r1| |] eqn:E4; simpl; try done.
    apply IHv in E4.
    pose proof (length_skip_ws (snd r1)) as Hs2. revert Hs2.
    generalize (skip_ws (snd r1)). intros s2 Hs2.
    destruct (starts_with "," s2) eqn:E5.
    { apply length_starts_with in E5.
      destruct (parse_members fuel (tail s2)) as [r2| |] eqn:E6; simpl; try done.
      intros [= <-]. simpl. apply IHm in E6. lia. }
    destruct (starts_with "}" s2) eqn:E6; [|done].
    apply length_starts_with in E6. intros [= <-]. simpl. lia.
Qed.

(** Twice the length of the text, and one, is fuel enough. *)
Lemma parse_total fuel :
  (forall s, (2 * String.length s + 1 <= fuel)%nat -> parse_value fuel s <> OutOfFuel)
  /\ (forall s, (2 * String.length s + 2 <= fuel)%nat -> parse_elems fuel s <> OutOfFuel)
  /\ (forall s, (2 * String.length s + 2 <= fuel)%nat -> parse_members fuel s <> OutOfFuel).
Proof.
  induction fuel as [|fuel (IHv & IHe & IHm)]; [repeat split; intros; lia|].
  destruct (parse_shrinks fuel) as (Shv & She & Shm).
  split; [|split]; intros s Hf.
  - rewrite parse_value_S. cbv zeta.
    pose proof (length_skip_ws s) as Hs. revert Hs.
    generalize (skip_ws s). intros s' Hs.
    destruct (starts_with "{" s') eqn:E1.
    { apply length_starts_with in E1.
      pose proof (length_skip_ws (tail s')) as Hs1. revert Hs1.
      generalize (skip_ws (tail s')). intros s1 Hs1.
      destruct (starts_with "}" s1); [done|].
      assert (Ht : parse_members fuel s1 <> OutOfFuel) by (apply IHm; lia).
      by destruct (parse_members fuel s1). }
    destruct (starts_with "[" s') eqn:E2.
    { apply length_starts_with in E2.
      pose proof (length_skip_ws (tail s')) as Hs1. revert Hs1.
      generalize (skip_ws (tail s')). intros s1 Hs1.
      destruct (starts_with "]" s1); [done|].
      assert (Ht : parse_elems fuel s1 <> OutOfFuel) by (apply IHe; lia).
      by destruct (parse_elems fuel s1). }
    destruct (starts_with "034" s'); [by destruct (parse_chars _)|].
    destruct (strip_prefix "true" s'); [done|].
    destruct (strip_prefix "false" s'); [done|].
    destruct (strip_prefix "null" s'); [done|].
    by destruct (parse_number s').
  - rewrite parse_elems_S.
    assert (Ht : parse_value fuel s <> OutOfFuel) by (apply IHv; lia).
    destruct (parse_value fuel s) as [r1| |] eqn:E1; simpl; try done.
    apply Shv in E1.
    pose proof (length_skip_ws (snd r1)) as Hs1. revert Hs1.
    generalize (skip_ws (snd r1)). intros s1 Hs1.
    destruct (starts_with "," s1) eqn:E2; [|by destruct (starts_with "]" s1)].
    apply length_starts_with in E2.
    assert (Ht' : parse_elems fuel (tail s1) <> OutOfFuel) by (apply IHe; lia).
    by destruct (parse_elems fuel (tail s1)).
  - rewrite parse_members_S. cbv zeta.
    pose proof (length_skip_ws s) as Hs. revert Hs.
    generalize (skip_ws s). intros s' Hs.
    destruct (starts_with "034" s') eqn:E1; [|done].
    apply length_starts_with in E1.
    destruct (parse_chars (tail s')) as [[k rest]|] eqn:E2; simpl; try done.
    apply parse_chars_shrinks in E2.
    pose proof (length_skip_ws rest) as Hs1. revert Hs1.
    generalize (skip_ws rest). intros s1 Hs1.
    destruct (starts_with ":" s1) eqn:E3; [|done].
    apply length_starts_with in E3.
    assert (Ht : parse_value fuel (tail s1) <> OutOfFuel) by (apply IHv; lia).
    destruct (parse_value fuel (tail s1)) as [r1| |] eqn:E4; simpl; try done.
    apply Shv in E4.
    pose proof (length_skip_ws (snd r1)) as Hs2. revert Hs2.
    generalize (skip_ws (snd r1)). intros s2 Hs2.
    destruct (starts_with "," s2) eqn:E5; [|by destruct (starts_with "}" s2)].
    apply length_starts_with in E5.
    assert (Ht' : parse_members fuel (tail s2) <> OutOfFuel) by (apply IHm; lia).
    by destruct (parse_members fuel (tail s2)).
Qed.

(** [JSON.parse] never reaches the recursion bound of the model: it returns
    a value or throws. *)
Lemma JSON_parse_total text : JSON_parse text <> OutOfFuel.
Proof.
  unfold JSON_parse.
  assert (Ht : parse_value (2 * String.length text + 1) text <> OutOfFuel)
    by (by apply parse_total).
  destruct (parse_value _ text); simpl; [|done|done].
  by case_bool_decide.
Qed.

(** A parser that returned or threw does the same with more fuel. *)
Lemma parse_mono fuel :
  (forall s, parse_value fuel s <> OutOfFuel ->
             parse_value (S fuel) s = parse_value fuel s)
  /\ (forall s, parse_elems fuel s <> OutOfFuel ->
                parse_elems (S fuel) s = parse_elems fuel s)
  /\ (forall s, parse_members fuel s <> OutOfFuel ->
                parse_members (S fuel) s = parse_members fuel s).
Proof.
  induction fuel as [|fuel (IHv & IHe & IHm)]; [by repeat split|].
  split; [|split]; intros s.
  - rewrite (parse_value_S (S fuel)), (parse_value_S fuel). cbv zeta.
    generalize (skip_ws s). intros s'.
    destruct (starts_with "{" s').
    { generalize (skip_ws (tail s')). intros s1.
      destruct (starts_with "}" s1); [done|].
      intros Ht. rewrite IHm; [done|]. by destruct (parse_members fuel s1). }
    destruct (starts_with "[" s'); [|done].
    generalize (skip_ws (tail s')). intros s1.
    destruct (starts_with "]" s1); [done|].
    intros Ht. rewrite IHe; [done|]. by destruct (parse_elems fuel s1).
  - rewrite (parse_elems_S (S fuel)), (parse_elems_S fuel).
    intros Ht. rewrite IHv by (by destruct (parse_value fuel s)).
    destruct (parse_value fuel s) as [r1| |]; cbn [bind fst snd] in *; try done.
    destruct (starts_with "," (skip_ws (snd r1))); [|done].
    rewrite IHe; [done|]. by destruct (parse_elems fuel _).
  - rewrite (parse_members_S (S fuel)), (parse_members_S fuel). cbv zeta.
    generalize (skip_ws s). intros s'.
    destruct (starts_with "034" s'); [|done].
    destruct (parse_chars (tail s')) as [[k rest]|];
      cbn [bind of_option fst snd]; [|done].
    destruct (starts_with ":" (skip_ws rest)); [|done].
    intros Ht. rewrite IHv by (by destruct (parse_value fuel _)).
    destruct (parse_value fuel _) as [r1| |]; cbn [bind fst snd] in *; try done.
    destruct (starts_with "," (skip_ws (snd r1))); [|done].
    rewrite IHm; [done|]. by destruct (parse_members fuel _).
Qed.

Lemma parse_value_more fuel fuel' s :
  (fuel <= fuel')%nat -> parse_value fuel s <> OutOfFuel ->
  parse_value fuel' s = parse_value fuel s.
Proof.
  induction 1 as [|fuel' Hle IH]; [done|]. intros Ht.
  rewrite <- IH by done. apply parse_mono. by rewrite IH.
Qed.

Lemma parse_elems_more fuel fuel' s :
  (fuel <= fuel')%nat -> parse_elems fuel s <> OutOfFuel ->
  parse_elems fuel' s = parse_elems fuel s.
Proof.
  induction 1 as [|fuel' Hle IH]; [done|]. intros Ht.
  rewrite <- IH by done. apply parse_mono. by rewrite IH.
Qed.

Lemma parse_members_more fuel fuel' s :
  (fuel <= fuel')%nat -> parse_members fuel s <> OutOfFuel ->
  parse_members fuel' s = parse_members fuel s.
Proof.
  induction 1 as [|fuel' Hle IH]; [done|]. intros Ht.
  rewrite <- IH by done. apply parse_mono. by rewrite IH.
Qed.

(** If some fuel parses [text] to [v] with nothing left, so does
    [JSON.parse]. *)
Lemma JSON_parse_fuel fuel text v :
  parse_value fuel text = Normal (v, "") -> JSON_parse text = Normal v.
Proof.
  intros Hp. unfold JSON_parse.
  assert (Ht : parse_value (2 * String.length text + 1) text <> OutOfFuel)
    by (by apply parse_total).
  assert (He : parse_value (2 * String.length text + 1) text = Normal (v, "")).
  { destruct (Nat.le_ge_cases fuel (2 * String.length text + 1)) as [Hle|Hle].
    - rewrite (parse_value_more _ _ _ Hle); [done|]. by rewrite Hp.
    - rewrite <- (parse_value_more _ _ _ Hle Ht). done. }
  rewrite He. reflexivity.
Qed.

(** ** Strings *)

#[local] Arguments String.append !_ _ : simpl nomatch.

Lemma append_assoc s1 s2 s3 : (s1 +:+ s2) +:+ s3 = s1 +:+ (s2 +:+ s3).
Proof. induction s1 as [|c s1 IH]; simpl; [done|]. by rewrite IH. Qed.

Lemma append_nil_r s : s +:+ "" = s.
Proof. induction s as [|c s IH]; simpl; [done|]. by rewrite IH. Qed.

Lemma parse_quote_char c rest :
  parse_chars (quote_char c +:+ rest) = prepend (String c "") (parse_chars rest).
Proof. destruct c as [[] [] [] [] [] [] [] []]; reflexivity. Qed.

Lemma parse_quote_chars s rest :
  parse_chars (quote_chars s +:+ dquote +:+ rest) = Some (s, rest).
Proof.
  induction s as [|c s IH]; [reflexivity|].
  cbn [quote_chars]. rewrite append_assoc, parse_quote_char, IH. reflexivity.
Qed.

Lemma parse_quoted s rest :
  parse_chars (tail (QuoteJSONString s +:+ rest)) = Some (s, rest).
Proof.
  unfold QuoteJSONString. cbn [dquote String.append tail].
  rewrite append_assoc. apply parse_quote_chars.
Qed.

Lemma quoted_starts s rest :
  skip_ws (QuoteJSONString s +:+ rest) = QuoteJSONString s +:+ rest
  /\ starts_with "034" (QuoteJSONString s +:+ rest) = true
  /\ starts_with "}" (QuoteJSONString s +:+ rest) = false.
Proof. done. Qed.

Lemma delimited_facts rest :
  delimited rest ->
  skip_ws rest = rest
  /\ match rest with
     | EmptyString => True
     | String c _ => is_numchar c = false
     end.
Proof.
  destruct rest as [|c rest]; [done|]. simpl.
  by intros [->|[->| ->]].
Qed.

(** ** Numbers *)

Lemma span_all f s rest :
  string_forall f s = true ->
  match rest with
  | EmptyString => True
  | String c _ => f c = false
  end ->
  span f (s +:+ rest) = (s, rest).
Proof.
  intros Hs Hr. induction s as [|c s IH]; simpl in *.
  - destruct rest as [|c rest]; simpl; [done|]. by rewrite Hr.
  - apply andb_prop in Hs as [Hc Hs]. rewrite Hc, (IH Hs). done.
Qed.

Lemma numchar_first c :
  is_numchar c = true ->
  is_ws c = false
  /\ Ascii.eqb "{" c = false /\ Ascii.eqb "[" c = false /\ Ascii.eqb "034" c = false
  /\ Ascii.eqb "t" c = false /\ Ascii.eqb "f" c = false /\ Ascii.eqb "n" c = false.
Proof. destruct c as [[] [] [] [] [] [] [] []]; vm_compute; intros H; done. Qed.

Lemma number_roundtrips n : number_stable n = true -> roundtrips (VNum n) (toString n).
Proof.
  unfold number_stable. intros [[Hfin Hall]%andb_prop Hlex%bool_decide_eq_true]%andb_prop.
  split.
  - intros h fuel stack. rewrite serialize_eq. by rewrite Hfin.
  - intros rest [Hws Hnum]%delimited_facts. exists 1%nat.
    rewrite parse_value_S. cbv zeta.
    destruct (toString n) as [|c t] eqn:Ht; [by rewrite number_of_lexeme_empty in Hlex|].
    pose proof Hall as Hall'. cbn [string_forall] in Hall'.
    apply andb_prop in Hall' as [Hc _].
    destruct (numchar_first c Hc) as (H1 & H2 & H3 & H4 & H5 & H6 & H7).
    cbn [String.append skip_ws]. rewrite H1.
    cbn [starts_with strip_prefix]. rewrite H2, H3, H4, H5, H6, H7.
    unfold parse_number.
    change (String c (t +:+ rest)) with (String c t +:+ rest).
    rewrite (span_all _ _ _ Hall Hnum), Hlex. reflexivity.
Qed.

(** ** Objects with their keys in order *)

Lemma key_sorted_prefix l1 k l2 :
  key_sorted (l1 ++ k :: l2) = true ->
  Forall (fun k0 => key_before k k0 = false /\ k0 <> k) l1.
Proof.
  induction l1 as [|k0 l1 IH]; simpl; intros H; [constructor|].
  apply andb_prop in H as [Hall Hs]. constructor; [|by apply IH].
  rewrite forallb_app in Hall. apply andb_prop in Hall as [_ Hall].
  simpl in Hall. apply andb_prop in Hall as [Hk _].
  apply andb_prop in Hk as [Hb Hne].
  split; [by apply negb_true_iff in Hb|].
  apply negb_true_iff in Hne. by apply bool_decide_eq_false in Hne.
Qed.

Lemma has_key_fresh k (l : list (string * value)) :
  Forall (fun k0 => k0 <> k) (map fst l) -> has_key k l = false.
Proof.
  induction l as [|[k0 v0] l IH]; simpl; [done|].
  intros [Hne Hl]%Forall_cons. rewrite (IH Hl).
  by rewrite bool_decide_eq_false_2.
Qed.

Lemma insert_prop_last k v (l : list (string * value)) :
  Forall (fun k0 => key_before k k0 = false) (map fst l) ->
  insert_prop k v l = (l ++ [(k, v)])%list.
Proof.
  induction l as [|[k0 v0] l IH]; simpl; [done|].
  intros [Hb Hl]%Forall_cons. by rewrite Hb, (IH Hl).
Qed.

Lemma fold_define_sorted (l2 : list (string * value)) : forall l1,
  key_sorted (map fst (l1 ++ l2)) = true ->
  fold_left define_prop l2 l1 = (l1 ++ l2)%list.
Proof.
  induction l2 as [|[k v] l2 IH]; intros l1 Hs; simpl.
  - by rewrite app_nil_r.
  - assert (Hd : define_prop l1 (k, v) = (l1 ++ [(k, v)])%list).
    { rewrite map_app in Hs. simpl in Hs. apply key_sorted_prefix in Hs.
      unfold define_prop. simpl. rewrite has_key_fresh.
      - apply insert_prop_last. eapply Forall_impl; [exact Hs|]. by intros k0 [].
      - eapply Forall_impl; [exact Hs|]. by intros k0 []. }
    rewrite Hd, IH; rewrite <- app_assoc; done.
Qed.

Lemma object_literal_sorted (props : list (string * value)) :
  key_sorted (map fst props) = true -> object_literal props = props.
Proof. intros Hs. unfold object_literal. by rewrite fold_define_sorted. Qed.

(** ** The JSON text of a stable value parses back to it *)

Lemma concat_cons_cons sep (x y : string) l :
  String.concat sep (x :: y :: l) = x +:+ sep +:+ String.concat sep (y :: l).
Proof. reflexivity. Qed.

Lemma items_roundtrip elems :
  Forall (fun x => exists text, roundtrips x text) elems ->
  exists parts,
    length parts = length elems
    /\ (forall h fuel stack,
          serialize_items (SerializeJSONProperty h fuel stack) elems = Normal parts)
    /\ (elems <> [] -> forall rest,
          exists fuel, parse_elems fuel (String.concat "," parts +:+ "]" +:+ rest)
                       = Normal (elems, rest)).
Proof.
  induction 1 as [|x l [text [Hser Hparse]] _ (parts & Hlen & Hsers & Hparses)].
  { exists []. by repeat split. }
  exists (text :: parts). split; [by simpl; rewrite Hlen|]. split.
  { intros h fuel stack. simpl. by rewrite Hser, Hsers. }
  intros _ rest. destruct l as [|y l].
  - destruct parts; [|done].
    destruct (Hparse ("]" +:+ rest)) as [f Hf]; [simpl; auto|].
    exists (S f). rewrite parse_elems_S. cbn [String.concat].
    rewrite Hf. reflexivity.
  - destruct parts as [|part parts]; [done|].
    rewrite concat_cons_cons, !append_assoc.
    destruct (Hparse ("," +:+ String.concat "," (part :: parts) +:+ "]" +:+ rest))
      as [f1 Hf1]; [simpl; auto|].
    destruct (Hparses ltac:(done) rest) as [f2 Hf2].
    exists (S (f1 `max` f2)). rewrite parse_elems_S.
    rewrite (parse_value_more f1) by (rewrite ?Hf1; done || lia).
    rewrite Hf1. cbn [bind fst snd].
    change (skip_ws ("," +:+ ?x)) with ("," +:+ x).
    change (starts_with "," ("," +:+ ?x)) with true. cbv iota.
    change (tail ("," +:+ ?x)) with x.
    rewrite (parse_elems_more f2) by (rewrite ?Hf2; done || lia).
    rewrite Hf2. reflexivity.
Qed.

Lemma members_roundtrip (props : list (string * value)) :
  Forall (fun kx => exists text, roundtrips (snd kx) text) props ->
  exists parts,
    length parts = length props
    /\ (forall h fuel stack,
          serialize_members (SerializeJSONProperty h fuel stack) props = Normal parts)
    /\ (forall part parts', parts = part :: parts' ->
          exists k tl, part = QuoteJSONString k +:+ tl)
    /\ (props <> [] -> forall rest,
          exists fuel, parse_members fuel (String.concat "," parts +:+ "}" +:+ rest)
                       = Normal (props, rest)).
Proof.
  induction 1 as [|[k x] l [text [Hser Hparse]] _ (parts & Hlen & Hsers & _ & Hparses)].
  { exists []. by repeat split. }
  simpl in Hser, Hparse.
  exists ((QuoteJSONString k +:+ ":" +:+ text) :: parts).
  split; [by simpl; rewrite Hlen|]. split.
  { intros h fuel stack. simpl. by rewrite Hser, Hsers. }
  split; [intros part parts' [= <- _]; eauto|].
  intros _ rest. destruct l as [|y l].
  - destruct parts; [|done]. cbn [String.concat].
    rewrite !append_assoc.
    destruct (Hparse ("}" +:+ rest)) as [f Hf]; [simpl; auto|].
    exists (S f). rewrite parse_members_S. cbv zeta.
    destruct (quoted_starts k (":" +:+ text +:+ "}" +:+ rest)) as (-> & -> & _).
    rewrite parse_quoted. cbn [of_option bind fst snd].
    change (skip_ws (":" +:+ ?x)) with (":" +:+ x).
    change (starts_with ":" (":" +:+ ?x)) with true. cbv iota.
    change (tail (":" +:+ ?x)) with x.
    rewrite Hf. reflexivity.
  - destruct parts as [|part parts]; [done|].
    rewrite concat_cons_cons, !append_assoc.
    destruct (Hparse ("," +:+ String.concat "," (part :: parts) +:+ "}" +:+ rest))
      as [f1 Hf1]; [simpl; auto|].
    destruct (Hparses ltac:(done) rest) as [f2 Hf2].
    exists (S (f1 `max` f2)). rewrite parse_members_S. cbv zeta.
    destruct (quoted_starts k (":" +:+ text +:+ "," +:+
                String.concat "," (part :: parts) +:+ "}" +:+ rest)) as (-> & -> & _).
    rewrite parse_quoted. cbn [of_option bind fst snd].
    change (skip_ws (":" +:+ ?x)) with (":" +:+ x).
    change (starts_with ":" (":" +:+ ?x)) with true. cbv iota.
    change (tail (":" +:+ ?x)) with x.
    rewrite (parse_value_more f1) by (rewrite ?Hf1; done || lia).
    rewrite Hf1. cbn [bind fst snd].
    change (skip_ws ("," +:+ ?x)) with ("," +:+ x).
    change (starts_with "," ("," +:+ ?x)) with true. cbv iota.
    change (tail ("," +:+ ?x)) with x.
    rewrite (parse_members_more f2) by (rewrite ?Hf2; done || lia).
    rewrite Hf2. reflexivity.
Qed.

Lemma skip_ws_idem s : skip_ws (skip_ws s) = skip_ws s.
Proof.
  induction s as [|c s IH]; simpl; [done|].
  destruct (is_ws c) eqn:E; [done|]. simpl. by rewrite E.
Qed.

Lemma parse_elems_skip fuel s : parse_elems fuel (skip_ws s) = parse_elems fuel s.
Proof.
  destruct fuel as [|[|fuel]]; [done|done|].
  by rewrite !parse_elems_S, !parse_value_S, skip_ws_idem.
Qed.

Lemma parse_members_skip fuel s : parse_members fuel (skip_ws s) = parse_members fuel s.
Proof.
  destruct fuel as [|fuel]; [done|].
  by rewrite !parse_members_S, skip_ws_idem.
Qed.

Lemma parse_value_not_bracket fuel s r :
  parse_value fuel s = Normal r -> starts_with "]" (skip_ws s) = false.
Proof.
  destruct fuel as [|fuel]; [done|]. rewrite parse_value_S. cbv zeta.
  destruct (skip_ws s) as [|c t]; [done|]. cbn [starts_with].
  destruct (Ascii.eqb_spec "]" c) as [<-|]; [|done]. discriminate.
Qed.

Lemma parse_elems_not_bracket fuel s r :
  parse_elems fuel s = Normal r -> starts_with "]" (skip_ws s) = false.
Proof.
  destruct fuel as [|fuel]; [done|]. rewrite parse_elems_S.
  destruct (parse_value fuel s) as [r1| |] eqn:E; [|done|done].
  intros _. by apply parse_value_not_bracket in E.
Qed.

Lemma parse_members_not_brace fuel s r :
  parse_members fuel s = Normal r -> starts_with "}" (skip_ws s) = false.
Proof.
  destruct fuel as [|fuel]; [done|]. rewrite parse_members_S. cbv zeta.
  destruct (skip_ws s) as [|c t]; [done|]. cbn [starts_with].
  destruct (Ascii.eqb_spec "}" c) as [<-|]; [|done]. discriminate.
Qed.

Lemma stable_roundtrips v : json_stable v = true -> exists text, roundtrips v text.
Proof.
  induction v as [| |b|n|s|elems IH|props IH|a] using value_ind; simpl; try done.
  - intros _. exists "null". split.
    + intros h fuel stack. by rewrite serialize_eq.
    + intros rest _. by exists 1%nat.
  - intros _. exists (if b then "true" else "false"). split.
    + intros h fuel stack. rewrite serialize_eq. by destruct b.
    + intros rest _. exists 1%nat. by destruct b.
  - intros Hn. exists (toString n). by apply number_roundtrips.
  - intros _. exists (QuoteJSONString s). split.
    + intros h fuel stack. by rewrite serialize_eq.
    + intros rest _. exists 1%nat. rewrite parse_value_S. cbv zeta.
      destruct (quoted_starts s rest) as (-> & Hq & _).
      assert (Hb : starts_with "{" (QuoteJSONString s +:+ rest) = false) by done.
      assert (Hk : starts_with "[" (QuoteJSONString s +:+ rest) = false) by done.
      rewrite Hb, Hk, Hq, parse_quoted. reflexivity.
  - intros Hall.
    assert (Hf : Forall (fun x => exists text, roundtrips x text) elems).
    { rewrite Forall_forall in IH. apply Forall_forall. intros x Hx.
      apply IH; [done|]. rewrite forallb_forall in Hall. apply Hall.
      by apply list_elem_of_In. }
    destruct (items_roundtrip elems Hf) as (parts & Hlen & Hsers & Hparses).
    exists ("[" +:+ String.concat "," parts +:+ "]"). split.
    + intros h fuel stack. rewrite serialize_eq. by rewrite Hsers.
    + intros rest _. destruct elems as [|x l].
      * destruct parts; [|done]. by exists 1%nat.
      * destruct (Hparses ltac:(done) rest) as [f Hp].
        exists (S f). rewrite parse_value_S. cbv zeta.
        rewrite !append_assoc.
        change (skip_ws ("[" +:+ ?x)) with ("[" +:+ x).
        change (starts_with "{" ("[" +:+ ?x)) with false.
        change (starts_with "[" ("[" +:+ ?x)) with true. cbv iota.
        change (tail ("[" +:+ ?x)) with x.
        rewrite (parse_elems_not_bracket _ _ _ Hp), parse_elems_skip, Hp.
        reflexivity.
  - intros [Hall Hkeys]%andb_prop.
    assert (Hf : Forall (fun kx => exists text, roundtrips (snd kx) text) props).
    { rewrite Forall_forall in IH. apply Forall_forall. intros x Hx.
      apply IH; [done|]. rewrite forallb_forall in Hall. apply Hall.
      by apply list_elem_of_In. }
    destruct (members_roundtrip props Hf) as (parts & Hlen & Hsers & _ & Hparses).
    exists ("{" +:+ String.concat "," parts +:+ "}"). split.
    + intros h fuel stack. rewrite serialize_eq. by rewrite Hsers.
    + intros rest _. destruct props as [|x l].
      * destruct parts; [|done]. by exists 1%nat.
      * destruct (Hparses ltac:(done) rest) as [f Hp].
        exists (S f). rewrite parse_value_S. cbv zeta.
        rewrite !append_assoc.
        change (skip_ws ("{" +:+ ?x)) with ("{" +:+ x).
        change (starts_with "{" ("{" +:+ ?x)) with true. cbv iota.
        change (tail ("{" +:+ ?x)) with x.
        rewrite (parse_members_not_brace _ _ _ Hp), parse_members_skip, Hp.
        cbn [bind fst snd]. by rewrite object_literal_sorted.
Qed.

(** [JSON.parse] of the text [JSON.stringify] gives for a stable value is
    that value. *)
Lemma JSON_roundtrip h v :
  json_stable v = true ->
  exists text, JSON_stringify h v = Normal (Some text) /\ JSON_parse text = Normal v.
Proof.
  intros (text & Hser & Hparse)%stable_roundtrips. exists text.
  split; [apply Hser|].
  destruct (Hparse "" I) as [fuel Hf]. rewrite append_nil_r in Hf.
  by apply JSON_parse_fuel in Hf.
Qed.

(** ** What JSON keeps of a value *)


Lemma serialize_items_ext f g elems elems' :
  Forall2 (fun x y => bind (f x) (fun o => Normal (from_option id "null" o))
                      = bind (g y) (fun o => Normal (from_option id "null" o)))
    elems elems' ->
  serialize_items f elems = serialize_items g elems'.
Proof.
  induction 1 as [|x y l l' Hxy _ IH]; simpl; [done|]. rewrite IH.
  destruct (f x) as [o| |], (g y) as [o'| |]; simpl in *; try congruence.
  injection Hxy as Hxy. by rewrite Hxy.
Qed.

Lemma serialize_image h fuel stack v :
  SerializeJSONProperty h fuel stack (json_image v)
  = SerializeJSONProperty h fuel stack v.
Proof.
  induction v as [| |b|n|s|elems IH|props IH|a] using value_ind; simpl; try done.
  - destruct (is_finite n) eqn:E; [done|]. rewrite !serialize_eq. by rewrite E.
  - rewrite !serialize_eq. f_equal. apply serialize_items_ext.
    induction IH as [|x l Hx _ IHl]; simpl; constructor; [|done].
    destruct x; try (by rewrite Hx). by rewrite !serialize_eq.
  - rewrite !serialize_eq. f_equal.
    induction IH as [|[k x] l Hx _ IHl]; [done|]. cbn [snd] in Hx.
    destruct x; cbn [image_members serialize_members fst snd];
      fold (image_members json_image l); rewrite ?Hx, IHl; try done.
    rewrite (serialize_eq _ _ _ VUndefined). cbn [bind].
    by destruct (serialize_members _ l).
Qed.

(** ** The key order of objects built with [define_prop] *)

Lemma key_before_asym k k' : key_before k k' = true -> key_before k' k = false.
Proof.
  unfold key_before. destruct (array_index k) as [i|], (array_index k') as [i'|];
    try done. intros H%Z.ltb_lt. apply Z.ltb_ge. lia.
Qed.

Lemma key_before_trans k k' k'' :
  key_before k k' = true -> key_before k'' k' = false -> key_before k'' k = false.
Proof.
  unfold key_before.
  destruct (array_index k) as [i|], (array_index k') as [i'|],
    (array_index k'') as [i''|]; try done.
  intros H%Z.ltb_lt H'%Z.ltb_ge. apply Z.ltb_ge. lia.
Qed.

Lemma forallb_insert_prop (P : string -> bool) k v (l : list (string * value)) :
  forallb P (map fst (insert_prop k v l)) = P k && forallb P (map fst l).
Proof.
  induction l as [|[k' v'] l IH]; simpl; [done|].
  destruct (key_before k k'); simpl; [done|].
  rewrite IH. by destruct (P k), (P k').
Qed.

Lemma has_key_false k (l : list (string * value)) :
  has_key k l = false -> forallb (fun k' => negb (bool_decide (k = k'))) (map fst l) = true.
Proof.
  induction l as [|[k' v'] l IH]; simpl; [done|].
  intros [Hk Hl]%orb_false_elim. by rewrite Hk, IH.
Qed.

Lemma insert_prop_sorted k v (l : list (string * value)) :
  has_key k l = false -> key_sorted (map fst l) = true ->
  key_sorted (map fst (insert_prop k v l)) = true.
Proof.
  induction l as [|[k' v'] l IH]; simpl; [done|].
  intros [Hk Hl]%orb_false_elim [Hall Hs]%andb_prop.
  destruct (key_before k k') eqn:Hb; simpl.
  - rewrite (key_before_asym _ _ Hb), Hk, Hall, Hs. simpl.
    rewrite andb_true_r. apply forallb_forall. intros x Hx.
    rewrite forallb_forall in Hall. pose proof (Hall x Hx) as [Hx1 _]%andb_prop.
    apply negb_true_iff in Hx1. rewrite (key_before_trans _ _ _ Hb Hx1). simpl.
    apply has_key_false in Hl. rewrite forallb_forall in Hl. by apply Hl.
  - rewrite forallb_insert_prop, Hb, Hall, (IH Hl Hs). simpl.
    rewrite !andb_true_r. apply negb_true_iff, bool_decide_eq_false.
    apply bool_decide_eq_false in Hk. congruence.
Qed.

Lemma replace_prop_keys k v (l : list (string * value)) :
  map fst (replace_prop k v l) = map fst l.
Proof.
  induction l as [|[k' v'] l IH]; simpl; [done|].
  case_bool_decide; simpl; [done|]. by rewrite IH.
Qed.

Lemma define_prop_sorted (l : list (string * value)) kx :
  key_sorted (map fst l) = true -> key_sorted (map fst (define_prop l kx)) = true.
Proof.
  intros Hs. unfold define_prop. destruct (has_key (fst kx) l) eqn:Hk.
  - by rewrite replace_prop_keys.
  - by apply insert_prop_sorted.
Qed.

Lemma fold_define_prop_sorted (l2 : list (string * value)) : forall l1,
  key_sorted (map fst l1) = true ->
  key_sorted (map fst (fold_left define_prop l2 l1)) = true.
Proof.
  induction l2 as [|kx l2 IH]; intros l1 Hs; simpl; [done|].
  by apply IH, define_prop_sorted.
Qed.

(** ** The values of objects built with [define_prop] *)

Lemma replace_prop_values (P : value -> Prop) k v (l : list (string * value)) :
  P v -> Forall (fun kx => P (snd kx)) l ->
  Forall (fun kx => P (snd kx)) (replace_prop k v l).
Proof.
  intros Hv. induction 1 as [|[k' v'] l Hx Hl IH]; simpl; [constructor|].
  case_bool_decide; constructor; done.
Qed.

Lemma insert_prop_values (P : value -> Prop) k v (l : list (string * value)) :
  P v -> Forall (fun kx => P (snd kx)) l ->
  Forall (fun kx => P (snd kx)) (insert_prop k v l).
Proof.
  intros Hv. induction 1 as [|[k' v'] l Hx Hl IH]; simpl; [by repeat constructor|].
  destruct (key_before k k'); repeat constructor; done.
Qed.

Lemma fold_define_prop_values (P : value -> Prop) (l2 : list (string * value)) :
  forall l1,
  Forall (fun kx => P (snd kx)) l2 -> Forall (fun kx => P (snd kx)) l1 ->
  Forall (fun kx => P (snd kx)) (fold_left define_prop l2 l1).
Proof.
  induction l2 as [|[k v] l2 IH]; intros l1 H2 H1; simpl; [done|].
  apply Forall_cons in H2 as [Hv H2]. apply IH; [done|].
  unfold define_prop. destruct (has_key _ l1).
  - by apply replace_prop_values.
  - by apply insert_prop_values.
Qed.

(** ** The image of an object whose values JSON accounts for *)

Lemma forallb_image_members (P : string -> bool) f (l : list (string * value)) :
  forallb P (map fst l) = true -> forallb P (map fst (image_members f l)) = true.
Proof.
  induction l as [|[k x] l IH]; simpl; [done|].
  intros [Hk Hl]%andb_prop. destruct x; simpl; rewrite ?Hk; auto.
Qed.

Lemma image_members_sorted f (l : list (string * value)) :
  key_sorted (map fst l) = true -> key_sorted (map fst (image_members f l)) = true.
Proof.
  induction l as [|[k x] l IH]; simpl; [done|].
  intros [Hall Hs]%andb_prop.
  destruct x; simpl; rewrite ?IH; auto; by rewrite forallb_image_members.
Qed.

Lemma image_stable (l : list (string * value)) :
  Forall (fun kx => json_kept (snd kx) = true) l ->
  key_sorted (map fst l) = true ->
  json_stable (json_image (VObj l)) = true.
Proof.
  intros Hv Hs. cbn [json_image json_stable].
  rewrite (image_members_sorted _ _ Hs), andb_true_r.
  induction Hv as [|[k x] l Hx _ IH]; [done|].
  cbn [map key_sorted] in Hs. apply andb_prop in Hs as [_ Hs].
  cbn [snd] in Hx.
  destruct x; cbn [image_members forallb fst snd];
    fold (image_members json_image l); rewrite ?(IH Hs); try done;
    unfold json_kept in Hx; by rewrite Hx.
Qed.

(** ** The request builder *)

Lemma image_roundtrip h v :
  json_stable (json_image v) = true ->
  exists text, JSON_stringify h v = Normal (Some text)
               /\ JSON_parse text = Normal (json_image v).
Proof.
  intros (text & Hser & Hparse)%(JSON_roundtrip h). exists text. split; [|done].
  unfold JSON_stringify in *. by rewrite <- serialize_image.
Qed.

Lemma payload_sorted h action params :
  key_sorted (map fst (payload h action params)) = true.
Proof.
  unfold payload. destruct params; try done; by apply fold_define_prop_sorted.
Qed.

Lemma payload_kept h action params :
  json_kept action = true ->
  Forall (fun kx => json_kept (snd kx) = true) (own_props h params) ->
  Forall (fun kx => json_kept (snd kx) = true) (payload h action params).
Proof.
  intros Ha Hp.
  assert (H0 : Forall (fun kx => json_kept (snd kx) = true)
                 (object_literal [("action", action)])) by (by repeat constructor).
  unfold payload. destruct params; try done;
    by apply (fold_define_prop_values (fun v => json_kept v = true)).
Qed.

Lemma define_prop_after_action x rest k v :
  beside_action k = true ->
  exists rest', define_prop (("action", x) :: rest) (k, v) = ("action", x) :: rest'.
Proof.
  unfold beside_action. intros [Hi Hk]%andb_prop.
  apply negb_true_iff, bool_decide_eq_false in Hi, Hk.
  unfold define_prop. cbn [fst snd has_key].
  rewrite (bool_decide_eq_false_2 _ Hk). cbn [orb].
  destruct (has_key k rest).
  - cbn [replace_prop]. rewrite (bool_decide_eq_false_2 _ Hk). eauto.
  - cbn [insert_prop]. unfold key_before.
    destruct (array_index k) as [i|]; [by destruct Hi|]. eauto.
Qed.

Lemma fold_define_prop_after_action (l : list (string * value)) : forall x rest,
  forallb beside_action (map fst l) = true ->
  exists rest', fold_left define_prop l (("action", x) :: rest) = ("action", x) :: rest'.
Proof.
  induction l as [|[k v] l IH]; intros x rest; simpl; [eauto|].
  intros [Hk Hl]%andb_prop.
  destruct (define_prop_after_action x rest k v Hk) as [rest' ->]. by apply IH.
Qed.

Lemma payload_action_first h a params :
  forallb beside_action (map fst (own_props h params)) = true ->
  exists rest, payload h (VStr a) params = ("action", VStr a) :: rest.
Proof.
  intros Hk. unfold payload.
  change (object_literal [("action", VStr a)]) with [("action", VStr a)].
  destruct params; try (by apply fold_define_prop_after_action). eauto.
Qed.

Lemma serialize_members_cons f k x l :
  serialize_members f ((k, x) :: l) =
  let* o := f x in
  let* r := serialize_members f l in
  Normal (match o with
          | Some str => (QuoteJSONString k +:+ ":" +:+ str) :: r
          | None => r
          end).
Proof. reflexivity. Qed.

Lemma action_member_text a tail :
  "{" +:+ (QuoteJSONString "action" +:+ ":" +:+ QuoteJSONString a) +:+ tail
  = dq "{'action':" +:+ QuoteJSONString a +:+ tail.
Proof. by rewrite !append_assoc. Qed.

Lemma action_text_first h a rest text :
  JSON_stringify h (VObj (("action", VStr a) :: rest)) = Normal (Some text) ->
  exists tail, text = dq "{'action':" +:+ QuoteJSONString a +:+ tail.
Proof.
  unfold JSON_stringify. rewrite serialize_eq, serialize_members_cons.
  rewrite (serialize_eq _ _ _ (VStr a)).
  change (bind (Normal ?x) ?k) with (k x). cbv beta iota.
  destruct (serialize_members _ rest) as [parts| |]; [|done|done].
  change (bind (Normal ?x) ?k) with (k x). cbv beta iota.
  change (bind (Normal ?x) ?k) with (k x). cbv beta iota.
  intros Heq.
  apply (f_equal (fun c => match c with Normal (Some t) => t | _ => text end)) in Heq.
  cbv beta iota in Heq. rewrite <- Heq. clear Heq.
  destruct parts as [|part parts].
  - exists "}". change (String.concat "," [?x]) with x.
    apply action_member_text.
  - exists ("," +:+ String.concat "," (part :: parts) +:+ "}").
    rewrite concat_cons_cons, <- action_member_text. by rewrite !append_assoc.
Qed.

Lemma quote_plain_char c : plain_char c = true -> quote_char c = String c "".
Proof. destruct c as [[] [] [] [] [] [] [] []]; vm_compute; intros H; done. Qed.

Lemma quote_plain s : string_forall plain_char s = true -> quote_chars s = s.
Proof.
  induction s as [|c s IH]; simpl; [done|].
  intros [Hc Hs]%andb_prop. by rewrite (quote_plain_char c Hc), (IH Hs).
Qed.

(** The builder returns or throws. *)
Lemma _buildRPCReq_total this h action params :
  _buildRPCReq this h action params <> OutOfFuel.
Proof.
  unfold _buildRPCReq.
  pose proof (JSON_stringify_total h (VObj (payload h action params))) as Ht.
  by destruct (JSON_stringify _ _).
Qed.

(** C1, as the code has it. The url of a descriptor is the node address and
    a slash whatever the action and the parameters.  Without parameters the
    body is the object with the one key [action], its value the action as a
    JSON string literal, which for an action name without quote, backslash
    or control character is the name between quotes.  With parameters whose
    property values are [undefined] or have a stable image, the body is a
    JSON text that parses to what JSON keeps of [{ action, ...params }];
    and [action] is the first key written when no key of the parameters is
    an array index or [action] itself. *)
Theorem build_request this h a :
  (forall params req,
     _buildRPCReq this h (VStr a) params = Normal req ->
     url req = nodeAddress this +:+ "/")
  /\ _buildRPCReq this h (VStr a) VUndefined
     = Normal {| url := nodeAddress this +:+ "/";
                 body := VStr (dq "{'action':" +:+ QuoteJSONString a +:+ "}") |}
  /\ (string_forall plain_char a = true ->
      _buildRPCReq this h (VStr a) VUndefined
      = Normal {| url := nodeAddress this +:+ "/";
                  body := VStr (dq "{'action':'" +:+ a +:+ dq "'}") |})
  /\ (forall params,
        params <> VUndefined ->
        Forall (fun kx => json_kept (snd kx) = true) (own_props h params) ->
        exists text,
          _buildRPCReq this h (VStr a) params
          = Normal {| url := nodeAddress this +:+ "/"; body := VStr text |}
          /\ payload h (VStr a) params
             = fold_left define_prop (own_props h params) [("action", VStr a)]
          /\ JSON_parse text = Normal (json_image (VObj (payload h (VStr a) params)))
          /\ (forallb beside_action (map fst (own_props h params)) = true ->
              exists tail, text = dq "{'action':" +:+ QuoteJSONString a +:+ tail)).
Proof.
  assert (Hnone : _buildRPCReq this h (VStr a) VUndefined
                  = Normal {| url := nodeAddress this +:+ "/";
                              body := VStr (dq "{'action':" +:+ QuoteJSONString a
                                            +:+ "}") |}).
  { unfold _buildRPCReq, JSON_stringify.
    change (payload h (VStr a) VUndefined) with [("action", VStr a)].
    rewrite serialize_eq, serialize_members_cons.
    rewrite (serialize_eq _ _ _ (VStr a)).
    change (serialize_members ?f []) with (@Normal (list string) []).
    change (bind (Normal ?x) ?k) with (k x). cbv beta iota.
    change (bind (Normal ?x) ?k) with (k x). cbv beta iota.
    change (bind (Normal ?x) ?k) with (k x). cbv beta iota.
    change (String.concat "," [?x]) with x.
    by rewrite action_member_text. }
  split; [|split; [exact Hnone|split]].
  - intros params req. unfold _buildRPCReq.
    destruct (JSON_stringify _ _); [|done|done]. by intros [= <-].
  - intros Hp. rewrite Hnone. unfold QuoteJSONString. rewrite (quote_plain _ Hp).
    by rewrite !append_assoc.
  - intros params Hdef Hkept.
    assert (Hst : json_stable (json_image (VObj (payload h (VStr a) params))) = true).
    { apply image_stable; [|apply payload_sorted]. by apply payload_kept. }
    destruct (image_roundtrip h _ Hst) as (text & Hser & Hparse).
    exists text. split; [|split; [|split]].
    + unfold _buildRPCReq. by rewrite Hser.
    + by destruct params.
    + done.
    + intros Hk. destruct (payload_action_first h a params Hk) as [rest Hrest].
      rewrite Hrest in Hser. by apply action_text_first in Hser.
Qed.

(** The two cases of the repository's test of [_buildRPCReq]. *)
Example build_without_args :
  _buildRPCReq test_client [] (VStr "block_count") VUndefined
  = Normal {| url := "xrbNodeAddress/"; body := VStr (dq "{'action':'block_count'}") |}.
Proof. reflexivity. Qed.

Example build_with_args :
  _buildRPCReq test_client [] (VStr "account_balance")
    (VObj (object_literal [("account", VStr "xrbWalletAddress")]))
  = Normal {| url := "xrbNodeAddress/";
              body := VStr (dq "{'action':'account_balance','account':'xrbWalletAddress'}") |}.
Proof. reflexivity. Qed.

Lemma build_request_witness :
  exists text,
    _buildRPCReq test_client [] (VStr "account_history")
      (VObj [("account", VStr "xrb_1"); ("count", VNum (of_Z 1))])
    = Normal {| url := nodeAddress test_client +:+ "/"; body := VStr text |}
    /\ payload [] (VStr "account_history")
         (VObj [("account", VStr "xrb_1"); ("count", VNum (of_Z 1))])
       = fold_left define_prop
           (own_props [] (VObj [("account", VStr "xrb_1"); ("count", VNum (of_Z 1))]))
           [("action", VStr "account_history")]
    /\ JSON_parse text
       = Normal (json_image
                   (VObj (payload [] (VStr "account_history")
                            (VObj [("account", VStr "xrb_1");
                                   ("count", VNum (of_Z 1))]))))
    /\ (forallb beside_action
          (map fst (own_props []
                      (VObj [("account", VStr "xrb_1"); ("count", VNum (of_Z 1))])))
        = true ->
        exists tail,
          text = dq "{'action':" +:+ QuoteJSONString "account_history" +:+ tail).
Proof.
  apply (proj2 (proj2 (proj2 (build_request test_client [] "account_history")))).
  - discriminate.
  - repeat constructor.
Defined.

(** C1, as stated, fails.  [account_balance()] without its argument hands
    the builder [{ account: undefined }]: the body has no [account] key, so
    it does not parse back to the merged object.  And parameters given as an
    array put their index keys before [action]. *)
Lemma body_drops_undefined_and_orders_indices :
  _buildRPCReq test_client [] (VStr "account_balance") (VObj [("account", VUndefined)])
  = Normal {| url := "xrbNodeAddress/";
              body := VStr (dq "{'action':'account_balance'}") |}
  /\ JSON_parse (dq "{'action':'account_balance'}")
     = Normal (VObj [("action", VStr "account_balance")])
  /\ payload [] (VStr "account_balance") (VObj [("account", VUndefined)])
     = [("action", VStr "account_balance"); ("account", VUndefined)]
  /\ _buildRPCReq test_client [] (VStr "blocks") (VArr [VStr "hash"])
     = Normal {| url := "xrbNodeAddress/";
                 body := VStr (dq "{'0':'hash','action':'blocks'}") |}.
Proof. repeat split; vm_compute; reflexivity. Qed.

(** ** The promise and the event handlers *)

Lemma resolve_settled v p : p <> Pending -> resolve v p = p.
Proof. by destruct p. Qed.

Lemma reject_settled e p : p <> Pending -> reject e p = p.
Proof. by destruct p. Qed.

Lemma on_event_settled this st ev :
  settled st <> Pending -> settled (on_event this st ev) = settled st.
Proof.
  intros Hs. destruct ev as [chunk| |e]; simpl.
  - unfold on_data. by destruct (chunks st).
  - unfold on_end. destruct (chunks st) as [buf|]; [|done].
    destruct (negb _); simpl; [by apply resolve_settled|].
    destruct (JSON_parse _); simpl;
      [by apply resolve_settled | by apply reject_settled | done].
  - by apply reject_settled.
Qed.

Lemma events_settled this evs st :
  settled st <> Pending ->
  settled (fold_left (on_event this) evs st) = settled st.
Proof.
  revert st. induction evs as [|ev evs IH]; intros st Hs; [done|].
  simpl. rewrite IH; rewrite on_event_settled; done.
Qed.

Lemma on_event_sent this st ev : sent (on_event this st ev) = sent st.
Proof.
  destruct ev as [chunk| |e]; simpl; [| |done].
  - unfold on_data. by destruct (chunks st).
  - unfold on_end. destruct (chunks st); [|done].
    destruct (negb _); [done|]. by destruct (JSON_parse _).
Qed.

Lemma events_sent this evs st :
  sent (fold_left (on_event this) evs st) = sent st.
Proof.
  revert st. induction evs as [|ev evs IH]; intros st; [done|].
  simpl. by rewrite IH, on_event_sent.
Qed.



(** The chunks of the body pile up in arrival order and leave the promise
    as it was. *)
Lemma data_events this cs st buf :
  chunks st = Some buf ->
  fold_left (on_event this) (map EvData cs) st =
  {| settled := settled st; chunks := Some (buf ++ cs)%list;
     sent := sent st; parsed := parsed st |}.
Proof.
  revert st buf. induction cs as [|c cs IH]; intros st buf Hb; simpl.
  - rewrite app_nil_r, <- Hb. by destruct st.
  - erewrite IH; [|by unfold on_data; rewrite Hb].
    unfold on_data. rewrite Hb. simpl. by rewrite <- app_assoc.
Qed.

Lemma on_response_chunks statusCode st : chunks (on_response statusCode st) = Some [].
Proof. done. Qed.

Lemma on_response_ok statusCode st :
  200 <= statusCode <= 299 ->
  on_response statusCode st =
  {| settled := settled st; chunks := Some []; sent := sent st; parsed := parsed st |}.
Proof.
  intros [Hlo Hhi]. unfold on_response.
  destruct (Z.ltb_spec statusCode 200); [lia|].
  destruct (Z.ltb_spec 299 statusCode); [lia|]. done.
Qed.

Section TransportProperties.

Variable URL_parse : string -> option URL.

Lemma send_issued this h method params req u net :
  issued URL_parse this h method params req u ->
  _send URL_parse this h method params net =
  let st := {| settled := Pending; chunks := None;
               sent := [IoRequest (select_lib u) (make_requestOptions u);
                        IoWrite (body req); IoEnd];
               parsed := [] |} in
  match net with
  | NetError e => settle (reject e) st
  | NetResponse statusCode events =>
      fold_left (on_event this) events (on_response statusCode st)
  end.
Proof. intros [Hb Hu]. unfold _send. by rewrite Hb, Hu. Qed.

(** C2. A response whose status code is outside 200..299 rejects the call
    with the error that carries that code, whatever the body holds and
    whatever follows: the parse and resolve at the end of the stream come
    too late to change it. *)
Theorem status_outside_2xx_rejects this h method params req u statusCode events :
  issued URL_parse this h method params req u ->
  statusCode < 200 \/ 299 < statusCode ->
  settled (_send URL_parse this h method params (NetResponse statusCode events))
  = Rejected (JsError "Error"
                ("Failed to fetch URL. Status code: " +:+ pretty statusCode)).
Proof.
  intros Hi Hs. rewrite (send_issued _ _ _ _ _ _ _ Hi). simpl.
  assert (Hr : settled (on_response statusCode
                 {| settled := Pending; chunks := None;
                    sent := [IoRequest (select_lib u) (make_requestOptions u);
                             IoWrite (body req); IoEnd];
                    parsed := [] |})
               = Rejected (status_error statusCode)).
  { unfold on_response.
    destruct (Z.ltb_spec statusCode 200); [done|].
    destruct (Z.ltb_spec 299 statusCode); [done|lia]. }
  rewrite events_settled; rewrite Hr; done.
Qed.

(** C3. With decoding enabled, a success status and a body that is not
    valid JSON, [JSON.parse] throws and the call is rejected with what it
    threw; nothing that follows resolves it. *)
Theorem invalid_json_rejects this h method params req u statusCode cs rest :
  issued URL_parse this h method params req u ->
  deserializeJSON this = VBool true ->
  200 <= statusCode <= 299 ->
  (forall v, JSON_parse (String.concat "" cs) <> Normal v) ->
  exists e,
    JSON_parse (String.concat "" cs) = Throw e
    /\ settled (_send URL_parse this h method params
                  (NetResponse statusCode (map EvData cs ++ EvEnd :: rest)))
       = Rejected e.
Proof.
  intros Hi Hd Hs Hp.
  pose proof (JSON_parse_total (String.concat "" cs)) as Ht.
  destruct (JSON_parse (String.concat "" cs)) as [v|e|] eqn:He;
    [by destruct (Hp v)| |done].
  exists e. split; [done|].
  rewrite (send_issued _ _ _ _ _ _ _ Hi). cbn zeta.
  rewrite on_response_ok by done. rewrite fold_left_app.
  erewrite data_events by done. cbn [fold_left app].
  rewrite events_settled; unfold on_event, on_end; cbn [chunks settled settle];
    rewrite Hd; cbn [truthy negb]; rewrite He; done.
Qed.


(** The comparison of [url.protocol] with ["https"] never holds: the
    protocol ends in a colon. *)
Lemma protocol_not_https u : protocol u <> "https".
Proof.
  unfold protocol. intros H.
  destruct (url_scheme u) as [|a [|b [|c [|d [|e [|f s]]]]]];
    simpl in H; inversion H.
Qed.

(** The transport chosen is the plain one for every URL, the encrypted
    scheme included. *)
Lemma select_lib_always_http u : select_lib u = http.
Proof.
  unfold select_lib. case_bool_decide as H; [|done].
  by apply protocol_not_https in H.
Qed.

(** C6. When serializing the payload throws, the call is rejected with the
    error wrapping what was thrown, and nothing has been sent. *)
Theorem serialization_failure_rejects_before_io this h method params e net :
  JSON_stringify h (VObj (payload h method params)) = Throw e ->
  settled (_send URL_parse this h method params net)
  = Rejected (JsError "Error" (exn_toString e))
  /\ sent (_send URL_parse this h method params net) = [].
Proof.
  intros He. unfold _send, _buildRPCReq. by rewrite He.
Qed.

(** C7, as the code has it. A call that is made issues one request: a POST
    to the hostname, port and path of the parsed url, with no headers
    property, writes the body of the descriptor and ends the request,
    whatever the network answers. *)
Theorem one_post_without_headers this h method params req u net :
  issued URL_parse this h method params req u ->
  sent (_send URL_parse this h method params net)
  = [IoRequest (select_lib u)
       {| opt_hostname := hostname u; opt_port := port u;
          opt_method := "POST"; opt_path := pathname u;
          opt_headers := None |};
     IoWrite (body req); IoEnd].
Proof.
  intros Hi. rewrite (send_issued _ _ _ _ _ _ _ Hi). cbn zeta.
  destruct net as [e|code evs]; [done|].
  rewrite events_sent. unfold on_response. by destruct (_ || _).
Qed.

End TransportProperties.

(** *** Instances on the example inputs *)

Lemma block_count_issued this :
  nodeAddress this = "http://[::1]:7076" ->
  issued basic_URL_parse this [] (VStr "block_count") VUndefined
    block_count_req local_node.
Proof.
  intros Ha. split.
  - unfold _buildRPCReq. rewrite Ha. reflexivity.
  - reflexivity.
Defined.

Lemma status_outside_2xx_rejects_witness :
  issued basic_URL_parse node_client [] (VStr "block_count") VUndefined
    block_count_req local_node
  /\ (404 < 200 \/ 299 < 404)
  /\ settled (_send basic_URL_parse node_client [] (VStr "block_count") VUndefined
                (NetResponse 404 [EvData (dq "{'count':'1'}"); EvEnd]))
     = Rejected (JsError "Error"
                   ("Failed to fetch URL. Status code: " +:+ pretty 404)).
Proof.
  assert (Hi : issued basic_URL_parse node_client [] (VStr "block_count") VUndefined
                 block_count_req local_node)
    by (apply block_count_issued; reflexivity).
  assert (Hs : 404 < 200 \/ 299 < 404) by (right; lia).
  split; [exact Hi|]. split; [exact Hs|].
  exact (status_outside_2xx_rejects basic_URL_parse node_client []
           (VStr "block_count") VUndefined block_count_req local_node 404
           [EvData (dq "{'count':'1'}"); EvEnd] Hi Hs).
Defined.

Lemma invalid_json_rejects_witness :
  deserializeJSON node_client = VBool true
  /\ 200 <= 200 <= 299
  /\ (forall v, JSON_parse (String.concat "" ["<html>"; "Bad gateway"]) <> Normal v)
  /\ exists e,
       JSON_parse (String.concat "" ["<html>"; "Bad gateway"]) = Throw e
       /\ settled (_send basic_URL_parse node_client [] (VStr "block_count")
                     VUndefined
                     (NetResponse 200
                        (map EvData ["<html>"; "Bad gateway"] ++ EvEnd :: [])))
          = Rejected e.
Proof.
  assert (Hs : 200 <= 200 <= 299) by lia.
  assert (Hp : forall v,
             JSON_parse (String.concat "" ["<html>"; "Bad gateway"]) <> Normal v)
    by (intros v; vm_compute; discriminate).
  split; [reflexivity|]. split; [exact Hs|]. split; [exact Hp|].
  apply (invalid_json_rejects basic_URL_parse node_client []
           (VStr "block_count") VUndefined block_count_req local_node 200
           ["<html>"; "Bad gateway"] []).
  - apply block_count_issued. reflexivity.
  - reflexivity.
  - exact Hs.
  - exact Hp.
Defined.


(** C5. A client whose node address has the https scheme sends its request
    through the http module. *)
Theorem https_address_sent_over_http net :
  basic_URL_parse (nodeAddress tls_client +:+ "/")
  = Some {| url_scheme := "https"; url_hostname := "node.example";
            url_port := "7076"; url_pathname := "/" |}
  /\ sent (block_count basic_URL_parse tls_client [] net)
     = [IoRequest http {| opt_hostname := "node.example"; opt_port := "7076";
                          opt_method := "POST"; opt_path := "/";
                          opt_headers := None |};
        IoWrite (VStr (dq "{'action':'block_count'}")); IoEnd].
Proof.
  split; [reflexivity|].
  unfold block_count.
  destruct net as [e|code evs]; [reflexivity|].
  unfold _send. simpl. rewrite events_sent. unfold on_response.
  by destruct (_ || _).
Qed.

Lemma serialization_failure_rejects_before_io_witness :
  JSON_stringify looping_heap
    (VObj (payload looping_heap (VStr "process") (VRef 0%nat))) = Throw circular
  /\ settled (_send basic_URL_parse node_client looping_heap (VStr "process")
                (VRef 0%nat) (NetResponse 200 [EvData "{}"; EvEnd]))
     = Rejected (JsError "Error" (exn_toString circular))
  /\ sent (_send basic_URL_parse node_client looping_heap (VStr "process")
             (VRef 0%nat) (NetResponse 200 [EvData "{}"; EvEnd]))
     = [].
Proof.
  split; [reflexivity|].
  apply (serialization_failure_rejects_before_io basic_URL_parse node_client
           looping_heap (VStr "process") (VRef 0%nat) circular
           (NetResponse 200 [EvData "{}"; EvEnd])).
  reflexivity.
Defined.

(** C7, as stated, fails: the request of a [block_count] call carries no
    header at all. *)
Lemma post_carries_no_json_header :
  sent (block_count basic_URL_parse node_client []
          (NetResponse 200 [EvData (dq "{'count':'1'}"); EvEnd]))
  = [IoRequest http (make_requestOptions local_node);
     IoWrite (VStr (dq "{'action':'block_count'}")); IoEnd]
  /\ has_json_header (make_requestOptions local_node) = false.
Proof. split; reflexivity. Qed.

Lemma one_post_without_headers_witness :
  issued basic_URL_parse node_client [] (VStr "block_count") VUndefined
    block_count_req local_node
  /\ sent (_send basic_URL_parse node_client [] (VStr "block_count") VUndefined
             (NetError (JsError "Error" "connect ECONNREFUSED")))
     = [IoRequest (select_lib local_node)
          {| opt_hostname := hostname local_node; opt_port := port local_node;
             opt_method := "POST"; opt_path := pathname local_node;
             opt_headers := None |};
        IoWrite (body block_count_req); IoEnd].
Proof.
  assert (Hi : issued basic_URL_parse node_client [] (VStr "block_count") VUndefined
                 block_count_req local_node)
    by (apply block_count_issued; reflexivity).
  split; [exact Hi|].
  exact (one_post_without_headers basic_URL_parse node_client []
           (VStr "block_count") VUndefined block_count_req local_node
           (NetError (JsError "Error" "connect ECONNREFUSED")) Hi).
Defined.

(** ** The public methods *)

Lemma sent_body URL_parse this h method params req u net :
  issued URL_parse this h method params req u ->
  sent (_send URL_parse this h method params net)
  = [IoRequest http (make_requestOptions u); IoWrite (body req); IoEnd].
Proof.
  intros [Hb Hu]. unfold _send. rewrite Hb, Hu. rewrite select_lib_always_http.
  destruct net as [e|code evs]; [done|].
  rewrite events_sent. unfold on_response. by destruct (_ || _).
Qed.

(** C8. [representatives] binds [count] and [sorting] and sends neither;
    [accounts_create] binds [work] and does not send it. *)
Theorem declared_parameters_not_forwarded count sorting work net :
  sent (representatives basic_URL_parse node_client [] count sorting net)
  = [IoRequest http (make_requestOptions local_node);
     IoWrite (VStr (dq "{'action':'representatives'}")); IoEnd]
  /\ sent (accounts_create basic_URL_parse node_client []
             (VStr "wallet") (VNum (of_Z 2)) work net)
     = [IoRequest http (make_requestOptions local_node);
        IoWrite (VStr (dq "{'action':'accounts_create','accounts':'wallet','count':2}"));
        IoEnd].
Proof.
  split.
  - unfold representatives.
    apply (sent_body _ _ _ _ _
             {| url := "http://[::1]:7076/";
                body := VStr (dq "{'action':'representatives'}") |} local_node).
    split; reflexivity.
  - unfold accounts_create.
    apply (sent_body _ _ _ _ _
             {| url := "http://[::1]:7076/";
                body := VStr (dq "{'action':'accounts_create','accounts':'wallet','count':2}") |}
             local_node).
    split; [|reflexivity]. vm_compute. reflexivity.
Qed.

Lemma body_is_text h v req this :
  match JSON_stringify h (VObj v) with
  | Normal o => Normal {| url := nodeAddress this +:+ "/"; body := option_string_value o |}
  | Throw e => Throw (JsError "Error" (exn_toString e))
  | OutOfFuel => OutOfFuel
  end = Normal req ->
  exists text, JSON_stringify h (VObj v) = Normal (Some text) /\ body req = VStr text.
Proof.
  unfold JSON_stringify. rewrite serialize_eq.
  destruct (serialize_members _ v) as [parts| |]; [|done|done].
  change (bind (Normal ?x) ?k) with (k x). cbv beta iota.
  intros Heq. eexists. split; [done|].
  apply (f_equal (fun c => match c with Normal r => body r | _ => VUndefined end)) in Heq.
  cbv beta iota in Heq. by rewrite <- Heq.
Qed.

Lemma serialize_number h fuel stack n :
  SerializeJSONProperty h fuel stack (VNum n)
  = Normal (Some (if is_finite n then toString n else "null")).
Proof. by destruct fuel. Qed.

Lemma default_threshold_value :
  of_Z 1000000000000000000000000 = S754_finite false 7450580596923828 27.
Proof. vm_compute. reflexivity. Qed.

Lemma default_threshold_text :
  toString (S754_finite false 7450580596923828 27) = "1e+24".
Proof. vm_compute. reflexivity. Qed.

(** The descriptor [accounts_pending] builds when [threshold] is left out:
    the members follow the action in the order of the literal, and a member
    whose value has no JSON text is left out. *)
Lemma accounts_pending_body this h accounts count source req :
  _buildRPCReq this h (VStr "accounts_pending")
    (accounts_pending_params accounts count VUndefined source) = Normal req ->
  body req
  = VStr (dq "{'action':'accounts_pending'"
          +:+ member_text h "accounts" accounts
          +:+ member_text h "count" (default_arg count (VNum (of_Z 1)))
          +:+ dq ",'threshold':1e+24"
          +:+ member_text h "source" (default_arg source (VBool false))
          +:+ "}").
Proof.
  intros Hb. unfold _buildRPCReq in Hb.
  assert (Hp : payload h (VStr "accounts_pending")
                 (accounts_pending_params accounts count VUndefined source)
               = [("action", VStr "accounts_pending"); ("accounts", accounts);
                  ("count", default_arg count (VNum (of_Z 1)));
                  ("threshold", VNum (of_Z 1000000000000000000000000));
                  ("source", default_arg source (VBool false))]) by reflexivity.
  rewrite Hp in Hb. clear Hp.
  apply body_is_text in Hb as (text & Hs & ->). f_equal.
  unfold JSON_stringify in Hs. rewrite serialize_eq in Hs.
  rewrite !serialize_members_cons in Hs.
  rewrite serialize_number, (serialize_eq _ _ _ (VStr _)) in Hs.
  rewrite default_threshold_value in Hs. cbn [is_finite] in Hs.
  rewrite default_threshold_text in Hs.
  unfold member_text, JSON_stringify.
  destruct (SerializeJSONProperty h (length h) [] accounts) as [[ta|]|ea|];
    destruct (SerializeJSONProperty h (length h) []
                (default_arg count (VNum (of_Z 1)))) as [[tc|]|ec|];
    destruct (SerializeJSONProperty h (length h) []
                (default_arg source (VBool false))) as [[ts|]|es|];
    try discriminate Hs;
    apply (f_equal (fun c => match c with Normal (Some t) => t | _ => text end)) in Hs;
    cbv beta iota in Hs; rewrite <- Hs; clear Hs;
    cbn [serialize_members bind String.concat];
    rewrite !append_assoc; reflexivity.
Qed.

(** C10. When [threshold] is left out, a call of [accounts_pending] that
    sends its request writes a body in which the member [threshold] has the
    text [1e+24].  That is the text [JSON.stringify] gives the value placed
    in the payload, the double nearest to 10^24, and the text denotes that
    double: its exact value is 999999999999999983222784, closer to 10^24
    than half the gap to the next double, and not 10^24. *)
Theorem accounts_pending_default_threshold URL_parse this h accounts count source net :
  sent (accounts_pending URL_parse this h accounts count VUndefined source net) <> [] ->
  let x := of_Z 1000000000000000000000000 in
  (exists u,
     sent (accounts_pending URL_parse this h accounts count VUndefined source net)
     = [IoRequest http (make_requestOptions u);
        IoWrite (VStr (dq "{'action':'accounts_pending'"
                       +:+ member_text h "accounts" accounts
                       +:+ member_text h "count" (default_arg count (VNum (of_Z 1)))
                       +:+ dq ",'threshold':1e+24"
                       +:+ member_text h "source" (default_arg source (VBool false))
                       +:+ "}"));
        IoEnd])
  /\ get_prop "threshold"
       (payload h (VStr "accounts_pending")
          (accounts_pending_params accounts count VUndefined source)) = VNum x
  /\ (forall stack,
        SerializeJSONProperty h (length h) stack (VNum x) = Normal (Some "1e+24"))
  /\ JSON_parse "1e+24" = Normal (VNum x)
  /\ x = S754_finite false 7450580596923828 27
  /\ to_Z x = Some 999999999999999983222784
  /\ 2 * Z.abs (10 ^ 24 - 7450580596923828 * 2 ^ 27) < 2 ^ 27
  /\ to_Z x <> Some (10 ^ 24).
Proof.
  intros Hsent x. subst x. split.
  - unfold accounts_pending in *.
    destruct (_buildRPCReq this h (VStr "accounts_pending")
                (accounts_pending_params accounts count VUndefined source))
      as [req|e|] eqn:Hb.
    + destruct (URL_parse (url req)) as [u|] eqn:Hu.
      * exists u.
        rewrite (sent_body URL_parse this h _ _ req u net) by (by split).
        by rewrite (accounts_pending_body this h accounts count source req Hb).
      * exfalso. apply Hsent. unfold _send. by rewrite Hb, Hu.
    + exfalso. apply Hsent. unfold _send. by rewrite Hb.
    + exfalso. apply Hsent. unfold _send. by rewrite Hb.
  - rewrite default_threshold_value.
    split; [reflexivity|]. split.
    { intros stack. rewrite serialize_number. cbn [is_finite].
      by rewrite default_threshold_text. }
    split; [vm_compute; reflexivity|]. split; [reflexivity|].
    split; [vm_compute; reflexivity|]. split; [vm_compute; reflexivity|].
    vm_compute; discriminate.
Qed.

Lemma accounts_pending_default_threshold_witness :
  sent (accounts_pending basic_URL_parse node_client []
          (VArr [VStr RAI_ADDRESS]) VUndefined VUndefined VUndefined
          (NetError (JsError "Error" "connect ECONNREFUSED"))) <> []
  /\ sent (accounts_pending basic_URL_parse node_client []
             (VArr [VStr RAI_ADDRESS]) VUndefined VUndefined VUndefined
             (NetError (JsError "Error" "connect ECONNREFUSED")))
     = [IoRequest http (make_requestOptions local_node);
        IoWrite (VStr (dq "{'action':'accounts_pending','accounts':['"
                       +:+ RAI_ADDRESS
                       +:+ dq "'],'count':1,'threshold':1e+24,'source':false}"));
        IoEnd]
  /\ exists u,
       sent (accounts_pending basic_URL_parse node_client []
               (VArr [VStr RAI_ADDRESS]) VUndefined VUndefined VUndefined
               (NetError (JsError "Error" "connect ECONNREFUSED")))
       = [IoRequest http (make_requestOptions u);
          IoWrite (VStr (dq "{'action':'accounts_pending'"
                         +:+ member_text [] "accounts" (VArr [VStr RAI_ADDRESS])
                         +:+ member_text [] "count"
                               (default_arg VUndefined (VNum (of_Z 1)))
                         +:+ dq ",'threshold':1e+24"
                         +:+ member_text [] "source"
                               (default_arg VUndefined (VBool false))
                         +:+ "}"));
          IoEnd].
Proof.
  assert (Hs : sent (accounts_pending basic_URL_parse node_client []
                       (VArr [VStr RAI_ADDRESS]) VUndefined VUndefined VUndefined
                       (NetError (JsError "Error" "connect ECONNREFUSED"))) <> [])
    by (vm_compute; discriminate).
  split; [exact Hs|]. split; [vm_compute; reflexivity|].
  exact (proj1 (accounts_pending_default_threshold basic_URL_parse node_client []
                  (VArr [VStr RAI_ADDRESS]) VUndefined VUndefined
                  (NetError (JsError "Error" "connect ECONNREFUSED")) Hs)).
Defined.

(** ** Buffers *)

Lemma decode_app (b1 b2 : Buffer) : forall st,
  decode st (b1 ++ b2)%list
  = (fst (decode (fst (decode st b1)) b2),
     snd (decode st b1) +:+ snd (decode (fst (decode st b1)) b2)).
Proof.
  induction b1 as [|x b1 IH]; intros st; cbn [decode app fst snd].
  - by destruct (decode st b2).
  - rewrite IH. cbn [fst snd]. by rewrite append_assoc.
Qed.

Lemma lead_byte_idle c :
  dec_needed (fst (lead_byte c)) = 0%nat -> fst (lead_byte c) = decoder_idle.
Proof.
  unfold lead_byte. destruct (code c <=? 127); [done|].
  destruct (_ && _); [done|]. destruct (_ && _); [done|]. by destruct (_ && _).
Qed.

Lemma decode_byte_idle st c :
  dec_needed (fst (decode_byte st c)) = 0%nat -> fst (decode_byte st c) = decoder_idle.
Proof.
  unfold decode_byte. destruct (dec_needed st) as [|n]; [apply lead_byte_idle|].
  destruct (_ && _); [by destruct n|]. apply lead_byte_idle.
Qed.

Lemma decode_idle (b : Buffer) : forall st,
  (dec_needed st = 0%nat -> st = decoder_idle) ->
  dec_needed (fst (decode st b)) = 0%nat -> fst (decode st b) = decoder_idle.
Proof.
  induction b as [|x b IH]; intros st Hst; cbn [decode fst]; [done|].
  apply IH, decode_byte_idle.
Qed.

Lemma ends_whole_idle (b : Buffer) :
  ends_whole b = true -> fst (decode decoder_idle b) = decoder_idle.
Proof.
  unfold ends_whole. intros Hw. apply decode_idle; [done|].
  by destruct (dec_needed _).
Qed.

(** The text of two buffers on end is the text of each when the first does
    not end inside a sequence. *)
Lemma Buffer_toString_app (b1 b2 : Buffer) :
  ends_whole b1 = true ->
  Buffer_toString (b1 ++ b2)%list = Buffer_toString b1 +:+ Buffer_toString b2.
Proof.
  intros Hw. unfold Buffer_toString. cbv zeta. rewrite decode_app.
  rewrite (ends_whole_idle b1 Hw). cbn [fst snd dec_needed decoder_idle].
  by rewrite append_nil_r, append_assoc.
Qed.

Lemma concat_empty_cons (x : string) l :
  String.concat "" (x :: l) = x +:+ String.concat "" l.
Proof.
  destruct l as [|y l]; [by cbn [String.concat]; rewrite append_nil_r|].
  by rewrite concat_cons_cons.
Qed.

Lemma Buffer_toString_concat (bufs : list Buffer) :
  forallb ends_whole bufs = true ->
  Buffer_toString (List.concat bufs) = String.concat "" (map Buffer_toString bufs).
Proof.
  induction bufs as [|b bufs IH]; [done|].
  intros [Hb Hbs]%andb_prop. cbn [List.concat map].
  by rewrite concat_empty_cons, Buffer_toString_app, IH.
Qed.

(** The client over http on a whole answer. *)
Lemma http_answer_raw URL_parse this h method params req u statusCode bufs :
  issued URL_parse this h method params req u ->
  truthy (deserializeJSON this) = false ->
  200 <= statusCode <= 299 ->
  settled (_send URL_parse this h method params (http_answer statusCode bufs))
  = Resolved (VStr (String.concat "" (map Buffer_toString bufs))).
Proof.
  intros Hi Hd Hs. rewrite (send_issued _ _ _ _ _ _ _ _ Hi). unfold http_answer.
  cbn zeta. rewrite on_response_ok by done. rewrite fold_left_app.
  erewrite data_events by done. cbn [fold_left app].
  unfold on_event, on_end. cbn [chunks settled settle]. by rewrite Hd.
Qed.

(** ** The two clients *)

(** C9, as stated, fails: on a 404 answer the client over http rejects and
    the client over the request library resolves with the body. *)
Lemma clients_differ_on_status :
  settled (_send basic_URL_parse raw_client [] (VStr "block_count") VUndefined
             (http_answer 404 [Buffer_from "Not Found"]))
  = Rejected (JsError "Error" "Failed to fetch URL. Status code: 404")
  /\ settled (_send_request raw_client [] (VStr "block_count") VUndefined
                (request_answer block_count_req [Buffer_from "Not Found"]))
     = Resolved (VStr "Not Found").
Proof. split; vm_compute; reflexivity. Qed.

(** C9, as the code has it. Both clients build the same descriptor; when
    building it throws, both reject with that error and send nothing; when
    the network fails before a response, both reject with its error; with
    decoding disabled, a success status and a body of which no chunk ends
    inside a character of several bytes, both resolve with the text of the
    whole body; and with decoding disabled and any other status, the client
    over http rejects with the status error where the client over the
    request library resolves with the text of the body. *)
Theorem clients_agree URL_parse this h method params :
  (forall err net net',
     _buildRPCReq this h method params = Throw err ->
     settled (_send URL_parse this h method params net) = Rejected err
     /\ settled (_send_request this h method params net') = Rejected err
     /\ sent (_send URL_parse this h method params net) = []
     /\ sent (_send_request this h method params net') = [])
  /\ (forall req u e,
        issued URL_parse this h method params req u ->
        settled (_send URL_parse this h method params (NetError e)) = Rejected e
        /\ settled (_send_request this h method params (request_failure req e))
           = Rejected e)
  /\ (forall req u statusCode bufs,
        issued URL_parse this h method params req u ->
        deserializeJSON this = VBool false ->
        200 <= statusCode <= 299 ->
        forallb ends_whole bufs = true ->
        settled (_send URL_parse this h method params (http_answer statusCode bufs))
        = Resolved (VStr (Buffer_toString (List.concat bufs)))
        /\ settled (_send_request this h method params (request_answer req bufs))
           = Resolved (VStr (Buffer_toString (List.concat bufs))))
  /\ (forall req u statusCode bufs,
        issued URL_parse this h method params req u ->
        deserializeJSON this = VBool false ->
        statusCode < 200 \/ 299 < statusCode ->
        settled (_send URL_parse this h method params (http_answer statusCode bufs))
        = Rejected (status_error statusCode)
        /\ settled (_send_request this h method params (request_answer req bufs))
           = Resolved (VStr (Buffer_toString (List.concat bufs)))).
Proof.
  split; [|split; [|split]].
  - intros err net net' Hb. unfold _send, _send_request. by rewrite Hb.
  - intros req u e [Hb Hu]. unfold _send, _send_request. by rewrite Hb, Hu.
  - intros req u statusCode bufs Hi Hd Hs Hw. split.
    + rewrite (http_answer_raw _ _ _ _ _ _ _ _ _ Hi) by (by rewrite ?Hd).
      by rewrite Buffer_toString_concat.
    + destruct Hi as [Hb _]. unfold _send_request. rewrite Hb. reflexivity.
  - intros req u statusCode bufs Hi Hd Hs. split.
    + rewrite (send_issued _ _ _ _ _ _ _ _ Hi). unfold http_answer. cbn zeta.
      rewrite events_settled; unfold on_response;
        destruct (Z.ltb_spec statusCode 200); try done;
        destruct (Z.ltb_spec 299 statusCode); try done; lia.
    + destruct Hi as [Hb _]. unfold _send_request. rewrite Hb. reflexivity.
Qed.

Lemma clients_agree_witness :
  forallb ends_whole [Buffer_from (dq "{'count':"); Buffer_from (dq "'1'}")] = true
  /\ settled (_send basic_URL_parse raw_client [] (VStr "block_count") VUndefined
                (http_answer 200
                   [Buffer_from (dq "{'count':"); Buffer_from (dq "'1'}")]))
     = Resolved (VStr (Buffer_toString
                         (List.concat [Buffer_from (dq "{'count':");
                                       Buffer_from (dq "'1'}")])))
  /\ settled (_send_request raw_client [] (VStr "block_count") VUndefined
                (request_answer block_count_req
                   [Buffer_from (dq "{'count':"); Buffer_from (dq "'1'}")]))
     = Resolved (VStr (Buffer_toString
                         (List.concat [Buffer_from (dq "{'count':");
                                       Buffer_from (dq "'1'}")]))).
Proof.
  split; [reflexivity|].
  apply (proj1 (proj2 (proj2 (clients_agree basic_URL_parse raw_client []
                                (VStr "block_count") VUndefined)))
           block_count_req local_node 200
           [Buffer_from (dq "{'count':"); Buffer_from (dq "'1'}")]).
  - apply block_count_issued. reflexivity.
  - reflexivity.
  - lia.
  - reflexivity.
Defined.

(** * Further properties *)

(** ** The response stream *)

Lemma on_end_settles this st buf :
  chunks st = Some buf -> settled (on_end this st) <> Pending.
Proof.
  intros Hb. unfold on_end. rewrite Hb.
  destruct (negb _); [by destruct st as [[] ? ? ?]|].
  pose proof (JSON_parse_total (String.concat "" buf)) as Ht.
  destruct (JSON_parse _); [| |done]; by destruct st as [[] ? ? ?].
Qed.

(** The state of a call that is made, after the status code, the chunks
    [cs] and the end of the body. *)
Lemma send_ended URL_parse this h method params req u statusCode cs :
  issued URL_parse this h method params req u ->
  _send URL_parse this h method params
    (NetResponse statusCode (map EvData cs ++ [EvEnd]))
  = on_end this
      {| settled := settled (on_response statusCode start);
         chunks := Some cs;
         sent := [IoRequest (select_lib u) (make_requestOptions u);
                  IoWrite (body req); IoEnd];
         parsed := [] |}.
Proof.
  intros Hi. rewrite (send_issued _ _ _ _ _ _ _ _ Hi). cbn zeta.
  rewrite fold_left_app. erewrite data_events by done.
  cbn [fold_left app on_event]. f_equal.
  unfold on_response, start. by destruct (_ || _).
Qed.

Lemma send_events_app URL_parse this h method params req u statusCode evs evs' :
  issued URL_parse this h method params req u ->
  _send URL_parse this h method params (NetResponse statusCode (evs ++ evs'))
  = fold_left (on_event this) evs'
      (_send URL_parse this h method params (NetResponse statusCode evs)).
Proof.
  intros Hi. rewrite !(send_issued _ _ _ _ _ _ _ _ Hi). cbn zeta.
  by rewrite fold_left_app.
Qed.

(** X1. With decoding enabled, a success status and a body that is valid
    JSON, the call resolves with the value the whole body parses to, and the
    joined body is the one text handed to [JSON.parse]. *)
Theorem valid_json_resolves URL_parse this h method params req u statusCode cs v :
  issued URL_parse this h method params req u ->
  truthy (deserializeJSON this) = true ->
  200 <= statusCode <= 299 ->
  JSON_parse (String.concat "" cs) = Normal v ->
  (forall rest,
     settled (_send URL_parse this h method params
                (NetResponse statusCode (map EvData cs ++ EvEnd :: rest)))
     = Resolved v)
  /\ parsed (_send URL_parse this h method params
               (NetResponse statusCode (map EvData cs ++ [EvEnd])))
     = [String.concat "" cs].
Proof.
  intros Hi Hd Hs Hp.
  assert (He : _send URL_parse this h method params
                 (NetResponse statusCode (map EvData cs ++ [EvEnd]))
               = {| settled := Resolved v; chunks := Some cs;
                    sent := [IoRequest (select_lib u) (make_requestOptions u);
                             IoWrite (body req); IoEnd];
                    parsed := [String.concat "" cs] |}).
  { rewrite (send_ended _ _ _ _ _ _ _ _ _ Hi).
    unfold on_end. cbn [chunks settled sent parsed]. rewrite Hd. cbn [negb].
    rewrite Hp. rewrite on_response_ok by done. reflexivity. }
  split; [|by rewrite He].
  intros rest. replace (map EvData cs ++ EvEnd :: rest)%list
      with ((map EvData cs ++ [EvEnd]) ++ rest)%list by (by rewrite <- app_assoc).
  rewrite (send_events_app _ _ _ _ _ _ _ _ _ _ Hi), He.
  by rewrite events_settled.
Qed.

(** X2. What a decoding client settles with is [JSON.parse] of what a raw
    client resolves with: for the same call and the same answer with a
    success status, the raw client resolves with the text of the body, and
    the decoding client resolves with the value that text parses to, or
    rejects with what parsing it throws. *)
Theorem decoded_is_parse_of_raw URL_parse raw dec h method params req u statusCode
    cs rest :
  nodeAddress raw = nodeAddress dec ->
  deserializeJSON raw = VBool false ->
  deserializeJSON dec = VBool true ->
  issued URL_parse raw h method params req u ->
  200 <= statusCode <= 299 ->
  exists text,
    settled (_send URL_parse raw h method params
               (NetResponse statusCode (map EvData cs ++ EvEnd :: rest)))
    = Resolved (VStr text)
    /\ (forall v, JSON_parse text = Normal v ->
         settled (_send URL_parse dec h method params
                    (NetResponse statusCode (map EvData cs ++ EvEnd :: rest)))
         = Resolved v)
    /\ (forall e, JSON_parse text = Throw e ->
         settled (_send URL_parse dec h method params
                    (NetResponse statusCode (map EvData cs ++ EvEnd :: rest)))
         = Rejected e).
Proof.
  intros Ha Hr Hd Hi Hs. exists (String.concat "" cs).
  assert (Hi' : issued URL_parse dec h method params req u).
  { destruct Hi as [Hb Hu]. split; [|done]. unfold _buildRPCReq in *. by rewrite <- Ha. }
  assert (Hdec : settled (_send URL_parse dec h method params
                    (NetResponse statusCode (map EvData cs ++ EvEnd :: rest)))
                 = settled (on_end dec
                     {| settled := Pending; chunks := Some cs;
                        sent := [IoRequest (select_lib u) (make_requestOptions u);
                                 IoWrite (body req); IoEnd];
                        parsed := [] |})).
  { replace (map EvData cs ++ EvEnd :: rest)%list
      with ((map EvData cs ++ [EvEnd]) ++ rest)%list by (by rewrite <- app_assoc).
    rewrite (send_events_app _ _ _ _ _ _ _ _ _ _ Hi'), (send_ended _ _ _ _ _ _ _ _ _ Hi').
    rewrite on_response_ok by done. cbn [settled start].
    rewrite events_settled; [done|]. by eapply on_end_settles. }
  split; [|split].
  - replace (map EvData cs ++ EvEnd :: rest)%list
      with ((map EvData cs ++ [EvEnd]) ++ rest)%list by (by rewrite <- app_assoc).
    rewrite (send_events_app _ _ _ _ _ _ _ _ _ _ Hi), (send_ended _ _ _ _ _ _ _ _ _ Hi).
    rewrite events_settled; unfold on_end; cbn [chunks settled sent parsed];
      rewrite Hr; cbn [truthy negb settle settled]; rewrite on_response_ok by done;
      done.
  - intros v Hp. rewrite Hdec. unfold on_end. cbn [chunks settled sent parsed].
    rewrite Hd. cbn [truthy negb]. by rewrite Hp.
  - intros e Hp. rewrite Hdec. unfold on_end. cbn [chunks settled sent parsed].
    rewrite Hd. cbn [truthy negb]. by rewrite Hp.
Qed.

(** Answers whose chunks join to the same text settle the call the same
    way. *)
Lemma same_text_same_outcome URL_parse this h method params statusCode cs cs'
    rest rest' :
  String.concat "" cs = String.concat "" cs' ->
  settled (_send URL_parse this h method params
             (NetResponse statusCode (map EvData cs ++ EvEnd :: rest)))
  = settled (_send URL_parse this h method params
               (NetResponse statusCode (map EvData cs' ++ EvEnd :: rest'))).
Proof.
  intros Hc. unfold _send.
  destruct (_buildRPCReq this h method params) as [req| |] eqn:Hb; [|done|done].
  destruct (URL_parse (url req)) as [u|] eqn:Hu; [|done].
  assert (Hi : issued URL_parse this h method params req u) by done.
  pose proof (send_events_app _ _ _ _ _ _ _ statusCode (map EvData cs ++ [EvEnd]) rest Hi) as H1.
  pose proof (send_events_app _ _ _ _ _ _ _ statusCode (map EvData cs' ++ [EvEnd]) rest' Hi) as H2.
  rewrite <- !app_assoc in H1, H2. cbn [app] in H1, H2.
  unfold _send in H1, H2. rewrite Hb, Hu in H1, H2. rewrite H1, H2.
  pose proof (send_ended _ _ _ _ _ _ _ statusCode cs Hi) as E1.
  pose proof (send_ended _ _ _ _ _ _ _ statusCode cs' Hi) as E2.
  unfold _send in E1, E2. rewrite Hb, Hu in E1, E2. rewrite E1, E2.
  rewrite !events_settled by (by eapply on_end_settles).
  unfold on_end. cbn [chunks settled sent parsed]. rewrite Hc.
  destruct (negb _); [done|]. by destruct (JSON_parse _).
Qed.

(** X3. How the body is cut into chunks does not matter as long as no
    chunk ends inside a character of several bytes: two answers with the
    same status code whose chunks are two such cuts of the same bytes
    settle the call the same way, whatever follows the end of the body. *)
Theorem chunking_is_irrelevant URL_parse this h method params statusCode
    (bufs bufs' : list Buffer) rest rest' :
  List.concat bufs = List.concat bufs' ->
  forallb ends_whole bufs = true ->
  forallb ends_whole bufs' = true ->
  settled (_send URL_parse this h method params
             (NetResponse statusCode
                (map EvData (map Buffer_toString bufs) ++ EvEnd :: rest)))
  = settled (_send URL_parse this h method params
               (NetResponse statusCode
                  (map EvData (map Buffer_toString bufs') ++ EvEnd :: rest'))).
Proof.
  intros Hc Hw Hw'. apply same_text_same_outcome.
  by rewrite <- !Buffer_toString_concat, Hc.
Qed.

(** X19. A chunk boundary inside a character changes what the client over
    http resolves with: the body of the bytes 22 C3 A9 22, a quoted e with
    an acute accent, resolves as that text when it arrives whole, and with
    two U+FFFD between the quotes when it arrives cut after C3, where the
    client over the request library resolves with the text of the whole
    body also then. *)
Theorem cut_character_changes_text URL_parse this h method params req u statusCode :
  issued URL_parse this h method params req u ->
  truthy (deserializeJSON this) = false ->
  200 <= statusCode <= 299 ->
  settled (_send URL_parse this h method params
             (http_answer statusCode [[Byte.x22; Byte.xc3; Byte.xa9; Byte.x22]]))
  = Resolved (VStr (dquote +:+ utf8 233 +:+ dquote))
  /\ settled (_send URL_parse this h method params
                (http_answer statusCode [[Byte.x22; Byte.xc3]; [Byte.xa9; Byte.x22]]))
     = Resolved (VStr (dquote +:+ replacement +:+ replacement +:+ dquote))
  /\ settled (_send_request this h method params
                (request_answer req [[Byte.x22; Byte.xc3]; [Byte.xa9; Byte.x22]]))
     = Resolved (VStr (dquote +:+ utf8 233 +:+ dquote)).
Proof.
  intros Hi Hd Hs. split; [|split].
  - by rewrite (http_answer_raw _ _ _ _ _ _ _ _ _ Hi Hd Hs).
  - by rewrite (http_answer_raw _ _ _ _ _ _ _ _ _ Hi Hd Hs).
  - destruct Hi as [Hb _]. unfold _send_request. rewrite Hb. reflexivity.
Qed.

(** X4. Until the body ends the call stays pending: with a success status
    and chunks only, nothing is resolved, rejected or parsed, and the chunks
    are kept in arrival order. *)
Theorem pending_until_end URL_parse this h method params req u statusCode cs :
  issued URL_parse this h method params req u ->
  200 <= statusCode <= 299 ->
  settled (_send URL_parse this h method params (NetResponse statusCode (map EvData cs)))
  = Pending
  /\ parsed (_send URL_parse this h method params
               (NetResponse statusCode (map EvData cs))) = []
  /\ chunks (_send URL_parse this h method params
               (NetResponse statusCode (map EvData cs))) = Some cs.
Proof.
  intros Hi Hs. rewrite (send_issued _ _ _ _ _ _ _ _ Hi). cbn zeta.
  rewrite on_response_ok by done. erewrite data_events by done. done.
Qed.

(** X5. The status codes that leave the call pending when the response
    arrives are exactly those from 200 to 299. *)
Theorem success_status_range URL_parse this h method params req u statusCode :
  issued URL_parse this h method params req u ->
  settled (_send URL_parse this h method params (NetResponse statusCode [])) = Pending
  <-> 200 <= statusCode <= 299.
Proof.
  intros Hi. rewrite (send_issued _ _ _ _ _ _ _ _ Hi). cbn zeta. cbn [fold_left].
  unfold on_response. cbn [settled settle reject].
  destruct (Z.ltb_spec statusCode 200), (Z.ltb_spec 299 statusCode);
    cbn [orb settled settle reject]; split; try done; lia.
Qed.

(** X6. A call settles once: when the events so far have settled it, no
    further event changes the outcome. *)
Theorem settles_once URL_parse this h method params statusCode evs evs' :
  settled (_send URL_parse this h method params (NetResponse statusCode evs))
  <> Pending ->
  settled (_send URL_parse this h method params (NetResponse statusCode (evs ++ evs')))
  = settled (_send URL_parse this h method params (NetResponse statusCode evs)).
Proof.
  unfold _send.
  destruct (_buildRPCReq this h method params) as [req| |]; [|done|done].
  destruct (URL_parse (url req)) as [u|]; [|done].
  intros Hs. rewrite fold_left_app. by rewrite events_settled.
Qed.

(** X7. A failure of the network rejects the call with its error: before
    any response, and also in the middle of a body after a success status,
    whatever arrives afterwards. *)
Theorem network_failure_rejects URL_parse this h method params req u e :
  issued URL_parse this h method params req u ->
  settled (_send URL_parse this h method params (NetError e)) = Rejected e
  /\ (forall statusCode cs rest,
        200 <= statusCode <= 299 ->
        settled (_send URL_parse this h method params
                   (NetResponse statusCode (map EvData cs ++ EvError e :: rest)))
        = Rejected e).
Proof.
  intros Hi. rewrite !(send_issued _ _ _ _ _ _ _ _ Hi). split; [done|].
  intros statusCode cs rest Hs. rewrite (send_issued _ _ _ _ _ _ _ _ Hi). cbn zeta.
  rewrite on_response_ok by done. rewrite fold_left_app.
  erewrite data_events by done. cbn [fold_left on_event].
  by rewrite events_settled.
Qed.

(** X8. When the url of the descriptor is not one [new URL] accepts, the
    call is rejected with the error it throws and nothing is sent or
    parsed, whatever the network would answer. *)
Theorem invalid_url_rejects URL_parse this h method params req net :
  _buildRPCReq this h method params = Normal req ->
  URL_parse (url req) = None ->
  _send URL_parse this h method params net
  = {| settled := Rejected invalid_url; chunks := None; sent := []; parsed := [] |}.
Proof. intros Hb Hu. unfold _send. by rewrite Hb, Hu. Qed.

(** X9. The client built on the request library never reads its own
    [deserializeJSON]: two clients with the same node address settle every
    call the same way, whatever their settings. *)
Theorem request_client_ignores_setting this this' h method params net :
  nodeAddress this = nodeAddress this' ->
  _send_request this h method params net = _send_request this' h method params net.
Proof.
  intros Ha. unfold _send_request, _buildRPCReq. by rewrite Ha.
Qed.

(** ** The payload *)

Lemma get_prop_replace k k' v (l : list (string * value)) :
  has_key k' l = true ->
  get_prop k (replace_prop k' v l) = if bool_decide (k = k') then v else get_prop k l.
Proof.
  induction l as [|[k0 v0] l IH]; cbn [has_key replace_prop get_prop]; [done|].
  destruct (bool_decide_reflect (k' = k0)) as [->|Hne]; cbn [orb get_prop].
  - intros _. by case_bool_decide.
  - intros Hk. rewrite (IH Hk).
    destruct (bool_decide_reflect (k = k0)) as [->|]; [|done].
    by rewrite bool_decide_eq_false_2.
Qed.

Lemma get_prop_insert k k' v (l : list (string * value)) :
  has_key k' l = false ->
  get_prop k (insert_prop k' v l) = if bool_decide (k = k') then v else get_prop k l.
Proof.
  induction l as [|[k0 v0] l IH]; cbn [has_key insert_prop get_prop]; [done|].
  intros [Hk0 Hk]%orb_false_elim. apply bool_decide_eq_false in Hk0.
  destruct (key_before k' k0); cbn [get_prop]; [done|]. rewrite (IH Hk).
  destruct (bool_decide_reflect (k = k0)) as [->|]; [|done].
  by rewrite bool_decide_eq_false_2.
Qed.

Lemma get_prop_define k kv (l : list (string * value)) :
  get_prop k (define_prop l kv)
  = if bool_decide (k = fst kv) then snd kv else get_prop k l.
Proof.
  unfold define_prop. destruct (has_key (fst kv) l) eqn:Hk.
  - by apply get_prop_replace.
  - by apply get_prop_insert.
Qed.

Lemma get_prop_fold_define k (l2 : list (string * value)) : forall l1,
  get_prop k (fold_left define_prop l2 l1) = last_value k l2 (get_prop k l1).
Proof.
  unfold last_value.
  induction l2 as [|kv l2 IH]; intros l1; cbn [fold_left]; [done|].
  by rewrite IH, get_prop_define.
Qed.

Lemma get_prop_absent k (l : list (string * value)) :
  has_key k l = false -> get_prop k l = VUndefined.
Proof.
  induction l as [|[k0 v0] l IH]; cbn [has_key get_prop]; [done|].
  intros [Hk0 Hk]%orb_false_elim. rewrite Hk0. by apply IH.
Qed.

Lemma last_value_absent k (l : list (string * value)) d :
  has_key k l = false -> last_value k l d = d.
Proof.
  unfold last_value. revert d.
  induction l as [|[k0 v0] l IH]; intros d; cbn [has_key fold_left fst snd]; [done|].
  intros [Hk0 Hk]%orb_false_elim. rewrite Hk0. by apply IH.
Qed.

Lemma last_value_unique k (l : list (string * value)) d :
  NoDup (map fst l) -> has_key k l = true -> last_value k l d = get_prop k l.
Proof.
  unfold last_value. revert d.
  induction l as [|[k0 v0] l IH]; intros d; cbn [map has_key fold_left get_prop fst snd];
    [done|].
  intros [Hnin Hnd]%NoDup_cons.
  destruct (bool_decide_reflect (k = k0)) as [->|Hne]; cbn [orb].
  - intros _. apply (last_value_absent k0 l v0).
    destruct (has_key k0 l) eqn:Hk; [|done]. exfalso. apply Hnin.
    clear -Hk. induction l as [|[k1 v1] l IH]; [done|].
    cbn [has_key map fst] in *. apply orb_prop in Hk as [Hk|Hk].
    + apply bool_decide_eq_true in Hk as ->. by left.
    + right. by apply IH.
  - intros Hk. by apply IH.
Qed.

(** X10. The payload holds every parameter under its key with its value,
    and [action] with the action name unless the parameters have a key
    [action] of their own, whose value then takes its place; no other key is
    present. *)
Theorem payload_lookup h a params k :
  NoDup (map fst (own_props h params)) ->
  get_prop k (payload h (VStr a) params)
  = if has_key k (own_props h params) then get_prop k (own_props h params)
    else if bool_decide (k = "action") then VStr a
    else VUndefined.
Proof.
  intros Hnd.
  assert (Hp : payload h (VStr a) params
               = fold_left define_prop (own_props h params) [("action", VStr a)])
    by (by destruct params).
  rewrite Hp, get_prop_fold_define.
  destruct (has_key k (own_props h params)) eqn:Hk.
  - by apply last_value_unique.
  - rewrite last_value_absent by done. cbn [get_prop]. by case_bool_decide.
Qed.

(** X11. Parameters without own properties of their own, such as [null], a
    boolean, a number, an empty string, array or object, give exactly the
    descriptor of a call without parameters. *)
Theorem no_properties_as_no_parameters this h action params :
  own_props h params = [] ->
  _buildRPCReq this h action params = _buildRPCReq this h action VUndefined.
Proof.
  intros Ho. unfold _buildRPCReq, payload. rewrite Ho. by destruct params.
Qed.

(** ** The decoding switch *)

Lemma on_event_truthy this this' st ev :
  truthy (deserializeJSON this) = truthy (deserializeJSON this') ->
  on_event this st ev = on_event this' st ev.
Proof.
  intros Ht. destruct ev as [chunk| |e]; [done| |done].
  cbn [on_event]. unfold on_end. by rewrite Ht.
Qed.

Lemma events_truthy this this' evs : forall st,
  truthy (deserializeJSON this) = truthy (deserializeJSON this') ->
  fold_left (on_event this) evs st = fold_left (on_event this') evs st.
Proof.
  induction evs as [|ev evs IH]; intros st Ht; [done|].
  cbn [fold_left]. by rewrite (on_event_truthy this this' st ev Ht), IH.
Qed.

(** X12. Of the second argument of the constructor only its truthiness
    reaches a call: two clients of one node whose [deserializeJSON] are both
    truthy, or both falsy, send the same and settle alike on every answer. *)
Theorem only_truthiness_matters URL_parse this this' h method params net :
  nodeAddress this = nodeAddress this' ->
  truthy (deserializeJSON this) = truthy (deserializeJSON this') ->
  _send URL_parse this h method params net
  = _send URL_parse this' h method params net.
Proof.
  intros Ha Ht. unfold _send, _buildRPCReq. rewrite Ha.
  destruct (JSON_stringify _ _) as [o|e|]; [|done|done].
  cbn [url]. destruct (URL_parse _) as [u|]; [|done].
  destruct net as [e|statusCode events]; [done|].
  by apply events_truthy.
Qed.

(** ** Settling *)

Lemma events_chunks this evs : forall st,
  is_Some (chunks st) -> is_Some (chunks (fold_left (on_event this) evs st)).
Proof.
  induction evs as [|ev evs IH]; intros st Hc; [done|].
  cbn [fold_left]. apply IH. destruct Hc as [buf Hb].
  destruct ev as [chunk| |e]; cbn [on_event].
  - unfold on_data. rewrite Hb. by eexists.
  - unfold on_end. rewrite Hb. destruct (negb _); [by eexists|].
    destruct (JSON_parse _); by eexists.
  - by eexists.
Qed.

Lemma ended_events_settle this evs : forall st,
  is_Some (chunks st) -> In EvEnd evs ->
  settled (fold_left (on_event this) evs st) <> Pending.
Proof.
  induction evs as [|ev evs IH]; intros st Hc; [done|].
  intros [->|Hin]; cbn [fold_left].
  - destruct Hc as [buf Hb]. rewrite events_settled; by eapply on_end_settles.
  - apply IH; [|done].
    apply (events_chunks this [ev] st Hc).
Qed.

(** X13. A call always returns, and once the response has ended its promise
    is settled: whatever the arguments, the status code and the events
    around the end of the body, it is resolved or rejected. *)
Theorem ended_response_settles URL_parse this h method params statusCode events :
  In EvEnd events ->
  settled (_send URL_parse this h method params (NetResponse statusCode events))
  <> Pending.
Proof.
  intros Hin. unfold _send.
  pose proof (_buildRPCReq_total this h method params) as Ht.
  destruct (_buildRPCReq _ _ _ _) as [req|e|]; [|done|done].
  destruct (URL_parse _) as [u|]; [|done].
  apply ended_events_settle; [|done]. rewrite on_response_chunks. by eexists.
Qed.

(** X14. The client built on the request library settles its promise on
    every reply, and the one thing it does is one post of the descriptor. *)
Theorem request_client_settles this h method params net :
  settled (_send_request this h method params net) <> Pending
  /\ (sent (_send_request this h method params net) = []
      \/ exists req, _buildRPCReq this h method params = Normal req
           /\ sent (_send_request this h method params net)
              = [IoPost (url req) (body req)]).
Proof.
  unfold _send_request.
  pose proof (_buildRPCReq_total this h method params) as Ht.
  destruct (_buildRPCReq _ _ _ _) as [req|e|]; [|by split; [|left]|done].
  pose proof (JSON_parse_total (reply_data net)) as Hp.
  split.
  - destruct (reply_err net); [done|]. destruct (negb _); [done|].
    by destruct (JSON_parse _).
  - right. exists req. split; [done|].
    destruct (reply_err net); [done|]. destruct (negb _); [done|].
    by destruct (JSON_parse _).
Qed.

(** ** All the public methods *)

Lemma send_posts_action URL_parse this h name params net :
  string_forall plain_char name = true ->
  forallb beside_action (map fst (own_props h params)) = true ->
  posts_action name (_send URL_parse this h (VStr name) params net).
Proof.
  intros Hn Hk. unfold posts_action.
  destruct (_buildRPCReq this h (VStr name) params) as [req|e|] eqn:Hb.
  - destruct (URL_parse (url req)) as [u|] eqn:Hu.
    + right. rewrite (sent_body URL_parse this h (VStr name) params req u net)
        by (by split).
      unfold _buildRPCReq in Hb.
      destruct (payload_action_first h name params Hk) as [rest Hp].
      rewrite Hp in Hb. apply body_is_text in Hb as (text & Hs & ->).
      apply action_text_first in Hs as [tail ->].
      exists u, tail. unfold QuoteJSONString. rewrite (quote_plain name Hn).
      by rewrite !append_assoc.
    + left. unfold _send. by rewrite Hb, Hu.
  - left. unfold _send. by rewrite Hb.
  - by destruct (_buildRPCReq_total this h (VStr name) params).
Qed.

(** X15. Every public method of the client, whatever its arguments and the
    answer of the network, either sends nothing, or makes exactly one
    request, over plain http, whose body is a JSON object text that opens
    with the method's own name as the action. *)
Theorem every_method_posts_its_action URL_parse this h :
  Forall (fun nm => forall args net, posts_action (fst nm) (snd nm args net))
    (public_methods URL_parse this h).
Proof.
  unfold public_methods.
  repeat (constructor;
          [intros args net; cbn [fst snd]; apply send_posts_action; reflexivity|]).
  constructor.
Qed.

(** ** The example program *)

(** X16. In the example program the handler passed to [catch] is
    [this.handleErrors], which is [undefined]: when the call rejects, the
    chain ends rejected with the same error and nothing is written to the
    console, where the constant [handleErrors] itself would have caught the
    error and written its message. *)
Theorem example_rejection_unhandled URL_parse net e :
  settled (account_balance URL_parse example_client [] (VStr RAI_ADDRESS) net)
  = Rejected e ->
  example_account_balance URL_parse net = (Rejected e, [])
  /\ example_with_handler URL_parse net
     = (Resolved VUndefined, [LogText (String "010" "Error: " +:+ err_message e)]).
Proof.
  intros Hr. unfold example_account_balance, example_with_handler.
  unfold then_log, catch_with. cbn [fst snd]. rewrite Hr. cbn [fst snd].
  split; reflexivity.
Qed.

(** ** The two clients *)

Lemma send_request_sent this h method params reply :
  sent (_send_request this h method params reply)
  = match _buildRPCReq this h method params with
    | Normal req => [IoPost (url req) (body req)]
    | _ => []
    end.
Proof.
  unfold _send_request.
  destruct (_buildRPCReq _ _ _ _) as [req|e|]; [|done|done].
  destruct (reply_err reply); [done|]. destruct (negb _); [done|].
  by destruct (JSON_parse _).
Qed.

Lemma same_descriptor_send URL_parse this h method params reply net :
  same_descriptor URL_parse (_send_request this h method params reply)
    (_send URL_parse this h method params net).
Proof.
  unfold same_descriptor. rewrite send_request_sent.
  destruct (_buildRPCReq this h method params) as [req|e|] eqn:Hb.
  - split; [right; by eexists _, _|]. split; [done|]. intros url0 body0 Heq.
    assert (Hurl : url0 = url req).
    { apply (f_equal (fun l => match l with [IoPost x _] => x | _ => url0 end)) in Heq.
      by symmetry. }
    assert (Hbody : body0 = body req).
    { apply (f_equal (fun l => match l with [IoPost _ x] => x | _ => body0 end)) in Heq.
      by symmetry. }
    subst url0 body0. destruct (URL_parse (url req)) as [u|] eqn:Hu.
    + by apply sent_body.
    + unfold _send. by rewrite Hb, Hu.
  - split; [by left|]. split; [|done]. intros _. unfold _send. by rewrite Hb.
  - split; [by left|]. split; [|done]. intros _. unfold _send. by rewrite Hb.
Qed.

Lemma send_request_posts_action this h name params reply :
  string_forall plain_char name = true ->
  forallb beside_action (map fst (own_props h params)) = true ->
  posts_action_to this name (_send_request this h (VStr name) params reply).
Proof.
  intros Hn Hk. unfold posts_action_to. rewrite send_request_sent.
  destruct (_buildRPCReq this h (VStr name) params) as [req|e|] eqn:Hb;
    [|by left|by left].
  right. unfold _buildRPCReq in Hb.
  destruct (payload_action_first h name params Hk) as [rest Hp].
  rewrite Hp in Hb.
  assert (Hurl : url req = nodeAddress this +:+ "/").
  { destruct (JSON_stringify _ _); [|done|done].
    apply (f_equal (fun c => match c with Normal r => url r | _ => "" end)) in Hb.
    by symmetry. }
  apply body_is_text in Hb as (text & Hs & ->).
  apply action_text_first in Hs as [tail ->].
  exists tail. rewrite Hurl. unfold QuoteJSONString. rewrite (quote_plain name Hn).
  by rewrite !append_assoc.
Qed.

(** X17. Every public method of the client built on the request library,
    whatever its arguments and the reply, either sends nothing or makes
    exactly one post, to the node address followed by a slash, whose body is
    a JSON object text that opens with the method's own name as the
    action. *)
Theorem request_methods_post_their_action this h :
  Forall (fun nm => forall args reply,
            posts_action_to this (fst nm) (snd nm args reply))
    (RequestClient.public_methods this h).
Proof.
  unfold RequestClient.public_methods.
  repeat (constructor;
          [intros args reply; cbn [fst snd]; apply send_request_posts_action;
           reflexivity|]).
  constructor.
Qed.

(** X18. The two clients build the same requests.  Every public method of
    the client built on the request library has a namesake in the other
    client, and for the same arguments: the first posts nothing or one
    descriptor; when it posts nothing, so does the other; and when it posts
    a body to a url, the other writes that same body to the one request it
    makes to that url, or sends nothing when [new URL] refuses the url. *)
Theorem clients_build_the_same_request URL_parse this h :
  Forall (fun nm =>
            exists m,
              method_named (fst nm) (public_methods URL_parse this h) = Some m
              /\ forall args reply net,
                   same_descriptor URL_parse (snd nm args reply) (m args net))
    (RequestClient.public_methods this h).
Proof.
  unfold RequestClient.public_methods.
  repeat (constructor;
          [eexists; split;
           [reflexivity|intros args reply net; apply same_descriptor_send]|]).
  constructor.
Qed.

(** ** Instances on the example inputs *)

Lemma valid_json_resolves_witness :
  truthy (deserializeJSON node_client) = true
  /\ 200 <= 200 <= 299
  /\ JSON_parse (String.concat "" [dq "{'count':"; dq "'1'}"])
     = Normal (VObj [("count", VStr "1")])
  /\ (forall rest,
        settled (_send basic_URL_parse node_client [] (VStr "block_count") VUndefined
                   (NetResponse 200
                      (map EvData [dq "{'count':"; dq "'1'}"] ++ EvEnd :: rest)))
        = Resolved (VObj [("count", VStr "1")]))
  /\ parsed (_send basic_URL_parse node_client [] (VStr "block_count") VUndefined
               (NetResponse 200 (map EvData [dq "{'count':"; dq "'1'}"] ++ [EvEnd])))
     = [String.concat "" [dq "{'count':"; dq "'1'}"]].
Proof.
  assert (Hs : 200 <= 200 <= 299) by lia.
  assert (Hp : JSON_parse (String.concat "" [dq "{'count':"; dq "'1'}"])
               = Normal (VObj [("count", VStr "1")])) by (vm_compute; reflexivity).
  split; [reflexivity|]. split; [exact Hs|]. split; [exact Hp|].
  apply (valid_json_resolves basic_URL_parse node_client [] (VStr "block_count")
           VUndefined block_count_req local_node 200
           [dq "{'count':"; dq "'1'}"] (VObj [("count", VStr "1")])).
  - apply block_count_issued. reflexivity.
  - reflexivity.
  - exact Hs.
  - exact Hp.
Defined.

Lemma decoded_is_parse_of_raw_witness :
  nodeAddress raw_client = nodeAddress node_client
  /\ exists text,
       settled (_send basic_URL_parse raw_client [] (VStr "block_count") VUndefined
                  (NetResponse 200 (map EvData [dq "{'count':"; dq "'1'}"] ++ EvEnd :: [])))
       = Resolved (VStr text)
       /\ (forall v, JSON_parse text = Normal v ->
            settled (_send basic_URL_parse node_client [] (VStr "block_count") VUndefined
                       (NetResponse 200
                          (map EvData [dq "{'count':"; dq "'1'}"] ++ EvEnd :: [])))
            = Resolved v)
       /\ (forall e, JSON_parse text = Throw e ->
            settled (_send basic_URL_parse node_client [] (VStr "block_count") VUndefined
                       (NetResponse 200
                          (map EvData [dq "{'count':"; dq "'1'}"] ++ EvEnd :: [])))
            = Rejected e).
Proof.
  split; [reflexivity|].
  apply (decoded_is_parse_of_raw basic_URL_parse raw_client node_client []
           (VStr "block_count") VUndefined block_count_req local_node 200
           [dq "{'count':"; dq "'1'}"] []).
  - reflexivity.
  - reflexivity.
  - reflexivity.
  - apply block_count_issued. reflexivity.
  - lia.
Defined.

Lemma chunking_is_irrelevant_witness :
  List.concat [[Byte.x22; Byte.xc3; Byte.xa9]; [Byte.x22]]
  = List.concat [[Byte.x22]; [Byte.xc3; Byte.xa9; Byte.x22]]
  /\ forallb ends_whole [[Byte.x22; Byte.xc3; Byte.xa9]; [Byte.x22]] = true
  /\ forallb ends_whole [[Byte.x22]; [Byte.xc3; Byte.xa9; Byte.x22]] = true
  /\ settled (_send basic_URL_parse node_client [] (VStr "block_count") VUndefined
                (NetResponse 200
                   (map EvData
                      (map Buffer_toString [[Byte.x22; Byte.xc3; Byte.xa9]; [Byte.x22]])
                    ++ EvEnd :: [])))
     = settled (_send basic_URL_parse node_client [] (VStr "block_count") VUndefined
                  (NetResponse 200
                     (map EvData
                        (map Buffer_toString
                           [[Byte.x22]; [Byte.xc3; Byte.xa9; Byte.x22]])
                      ++ EvEnd :: [EvEnd]))).
Proof.
  split; [reflexivity|]. split; [reflexivity|]. split; [reflexivity|].
  apply (chunking_is_irrelevant basic_URL_parse node_client [] (VStr "block_count")
           VUndefined 200 [[Byte.x22; Byte.xc3; Byte.xa9]; [Byte.x22]]
           [[Byte.x22]; [Byte.xc3; Byte.xa9; Byte.x22]] [] [EvEnd]).
  - reflexivity.
  - reflexivity.
  - reflexivity.
Defined.

Lemma cut_character_changes_text_witness :
  truthy (deserializeJSON raw_client) = false
  /\ 200 <= 200 <= 299
  /\ settled (_send basic_URL_parse raw_client [] (VStr "block_count") VUndefined
                (http_answer 200 [[Byte.x22; Byte.xc3; Byte.xa9; Byte.x22]]))
     = Resolved (VStr (dquote +:+ utf8 233 +:+ dquote))
  /\ settled (_send basic_URL_parse raw_client [] (VStr "block_count") VUndefined
                (http_answer 200 [[Byte.x22; Byte.xc3]; [Byte.xa9; Byte.x22]]))
     = Resolved (VStr (dquote +:+ replacement +:+ replacement +:+ dquote))
  /\ settled (_send_request raw_client [] (VStr "block_count") VUndefined
                (request_answer block_count_req
                   [[Byte.x22; Byte.xc3]; [Byte.xa9; Byte.x22]]))
     = Resolved (VStr (dquote +:+ utf8 233 +:+ dquote)).
Proof.
  assert (Hs : 200 <= 200 <= 299) by lia.
  split; [reflexivity|]. split; [exact Hs|].
  apply (cut_character_changes_text basic_URL_parse raw_client [] (VStr "block_count")
           VUndefined block_count_req local_node 200).
  - apply block_count_issued. reflexivity.
  - reflexivity.
  - exact Hs.
Defined.

Lemma pending_until_end_witness :
  200 <= 204 <= 299
  /\ settled (_send basic_URL_parse node_client [] (VStr "block_count") VUndefined
                (NetResponse 204 (map EvData ["{"; "}"]))) = Pending
  /\ parsed (_send basic_URL_parse node_client [] (VStr "block_count") VUndefined
               (NetResponse 204 (map EvData ["{"; "}"]))) = []
  /\ chunks (_send basic_URL_parse node_client [] (VStr "block_count") VUndefined
               (NetResponse 204 (map EvData ["{"; "}"]))) = Some ["{"; "}"].
Proof.
  assert (Hs : 200 <= 204 <= 299) by lia.
  split; [exact Hs|].
  apply (pending_until_end basic_URL_parse node_client [] (VStr "block_count")
           VUndefined block_count_req local_node 204 ["{"; "}"]).
  - apply block_count_issued. reflexivity.
  - exact Hs.
Defined.

Lemma success_status_range_witness :
  issued basic_URL_parse node_client [] (VStr "block_count") VUndefined
    block_count_req local_node
  /\ (settled (_send basic_URL_parse node_client [] (VStr "block_count") VUndefined
                 (NetResponse 200 [])) = Pending
      <-> 200 <= 200 <= 299).
Proof.
  assert (Hi : issued basic_URL_parse node_client [] (VStr "block_count") VUndefined
                 block_count_req local_node)
    by (apply block_count_issued; reflexivity).
  split; [exact Hi|].
  exact (success_status_range basic_URL_parse node_client [] (VStr "block_count")
           VUndefined block_count_req local_node 200 Hi).
Defined.

Lemma settles_once_witness :
  settled (_send basic_URL_parse raw_client [] (VStr "block_count") VUndefined
             (NetResponse 200 [EvData "1"; EvEnd])) <> Pending
  /\ settled (_send basic_URL_parse raw_client [] (VStr "block_count") VUndefined
                (NetResponse 200
                   ([EvData "1"; EvEnd] ++ [EvError (JsError "Error" "socket hang up")])))
     = settled (_send basic_URL_parse raw_client [] (VStr "block_count") VUndefined
                  (NetResponse 200 [EvData "1"; EvEnd])).
Proof.
  assert (Hs : settled (_send basic_URL_parse raw_client [] (VStr "block_count")
                          VUndefined (NetResponse 200 [EvData "1"; EvEnd]))
               <> Pending) by (vm_compute; discriminate).
  split; [exact Hs|].
  exact (settles_once basic_URL_parse raw_client [] (VStr "block_count") VUndefined
           200 [EvData "1"; EvEnd] [EvError (JsError "Error" "socket hang up")] Hs).
Defined.

Lemma network_failure_rejects_witness :
  issued basic_URL_parse node_client [] (VStr "block_count") VUndefined
    block_count_req local_node
  /\ settled (_send basic_URL_parse node_client [] (VStr "block_count") VUndefined
                (NetError (JsError "Error" "connect ECONNREFUSED")))
     = Rejected (JsError "Error" "connect ECONNREFUSED")
  /\ (forall statusCode cs rest,
        200 <= statusCode <= 299 ->
        settled (_send basic_URL_parse node_client [] (VStr "block_count") VUndefined
                   (NetResponse statusCode
                      (map EvData cs
                       ++ EvError (JsError "Error" "connect ECONNREFUSED") :: rest)))
        = Rejected (JsError "Error" "connect ECONNREFUSED")).
Proof.
  assert (Hi : issued basic_URL_parse node_client [] (VStr "block_count") VUndefined
                 block_count_req local_node)
    by (apply block_count_issued; reflexivity).
  split; [exact Hi|].
  exact (network_failure_rejects basic_URL_parse node_client [] (VStr "block_count")
           VUndefined block_count_req local_node
           (JsError "Error" "connect ECONNREFUSED") Hi).
Defined.

Lemma invalid_url_rejects_witness :
  _buildRPCReq test_client [] (VStr "block_count") VUndefined
  = Normal {| url := "xrbNodeAddress/"; body := VStr (dq "{'action':'block_count'}") |}
  /\ basic_URL_parse "xrbNodeAddress/" = None
  /\ _send basic_URL_parse test_client [] (VStr "block_count") VUndefined
       (http_answer 200 [Buffer_from (dq "{'count':'1'}")])
     = {| settled := Rejected invalid_url; chunks := None; sent := []; parsed := [] |}.
Proof.
  assert (Hb : _buildRPCReq test_client [] (VStr "block_count") VUndefined
               = Normal {| url := "xrbNodeAddress/";
                           body := VStr (dq "{'action':'block_count'}") |})
    by reflexivity.
  assert (Hu : basic_URL_parse "xrbNodeAddress/" = None) by reflexivity.
  split; [exact Hb|]. split; [exact Hu|].
  exact (invalid_url_rejects basic_URL_parse test_client [] (VStr "block_count")
           VUndefined _ (http_answer 200 [Buffer_from (dq "{'count':'1'}")]) Hb Hu).
Defined.

Lemma request_client_ignores_setting_witness :
  nodeAddress node_client = nodeAddress raw_client
  /\ _send_request node_client [] (VStr "block_count") VUndefined
       (request_answer block_count_req [Buffer_from (dq "{'count':'1'}")])
     = _send_request raw_client [] (VStr "block_count") VUndefined
         (request_answer block_count_req [Buffer_from (dq "{'count':'1'}")]).
Proof.
  split; [reflexivity|].
  apply (request_client_ignores_setting node_client raw_client [] (VStr "block_count")
           VUndefined (request_answer block_count_req [Buffer_from (dq "{'count':'1'}")])).
  reflexivity.
Defined.

Lemma payload_lookup_witness :
  NoDup (map fst (own_props [] (VObj [("action", VStr "stop"); ("wallet", VStr "w")])))
  /\ get_prop "action"
       (payload [] (VStr "wallet_export") (VObj [("action", VStr "stop"); ("wallet", VStr "w")]))
     = if has_key "action" (own_props [] (VObj [("action", VStr "stop"); ("wallet", VStr "w")]))
       then get_prop "action"
              (own_props [] (VObj [("action", VStr "stop"); ("wallet", VStr "w")]))
       else if bool_decide ("action" = "action") then VStr "wallet_export"
       else VUndefined.
Proof.
  assert (Hn : NoDup (map fst (own_props []
                        (VObj [("action", VStr "stop"); ("wallet", VStr "w")]))))
    by (apply (bool_decide_unpack _); vm_compute; exact I).
  split; [exact Hn|].
  exact (payload_lookup [] "wallet_export"
           (VObj [("action", VStr "stop"); ("wallet", VStr "w")]) "action" Hn).
Defined.

Lemma no_properties_as_no_parameters_witness :
  own_props [] VNull = []
  /\ _buildRPCReq test_client [] (VStr "block_count") VNull
     = _buildRPCReq test_client [] (VStr "block_count") VUndefined.
Proof.
  split; [reflexivity|].
  apply (no_properties_as_no_parameters test_client [] (VStr "block_count") VNull).
  reflexivity.
Defined.

Lemma only_truthiness_matters_witness :
  nodeAddress node_client = nodeAddress (new_RaiClient "http://[::1]:7076" (VStr "no"))
  /\ truthy (deserializeJSON node_client)
     = truthy (deserializeJSON (new_RaiClient "http://[::1]:7076" (VStr "no")))
  /\ _send basic_URL_parse node_client [] (VStr "block_count") VUndefined
       (http_answer 200 [Buffer_from (dq "{'count':'1'}")])
     = _send basic_URL_parse (new_RaiClient "http://[::1]:7076" (VStr "no")) []
         (VStr "block_count") VUndefined (http_answer 200 [Buffer_from (dq "{'count':'1'}")]).
Proof.
  split; [reflexivity|]. split; [reflexivity|].
  apply (only_truthiness_matters basic_URL_parse node_client
           (new_RaiClient "http://[::1]:7076" (VStr "no")) [] (VStr "block_count")
           VUndefined (http_answer 200 [Buffer_from (dq "{'count':'1'}")])).
  - reflexivity.
  - reflexivity.
Defined.

Lemma ended_response_settles_witness :
  In EvEnd [EvData "<html>"; EvEnd]
  /\ settled (_send basic_URL_parse node_client [] (VStr "block_count") VUndefined
                (NetResponse 502 [EvData "<html>"; EvEnd])) <> Pending.
Proof.
  assert (Hin : In EvEnd [EvData "<html>"; EvEnd]) by (right; left; reflexivity).
  split; [exact Hin|].
  exact (ended_response_settles basic_URL_parse node_client [] (VStr "block_count")
           VUndefined 502 [EvData "<html>"; EvEnd] Hin).
Defined.

Lemma example_rejection_unhandled_witness :
  settled (account_balance basic_URL_parse example_client [] (VStr RAI_ADDRESS)
             (NetError (JsError "Error" "connect ECONNREFUSED")))
  = Rejected (JsError "Error" "connect ECONNREFUSED")
  /\ example_account_balance basic_URL_parse
       (NetError (JsError "Error" "connect ECONNREFUSED"))
     = (Rejected (JsError "Error" "connect ECONNREFUSED"), [])
  /\ example_with_handler basic_URL_parse
       (NetError (JsError "Error" "connect ECONNREFUSED"))
     = (Resolved VUndefined,
        [LogText (String "010" "Error: "
                  +:+ err_message (JsError "Error" "connect ECONNREFUSED"))]).
Proof.
  assert (Hr : settled (account_balance basic_URL_parse example_client []
                          (VStr RAI_ADDRESS)
                          (NetError (JsError "Error" "connect ECONNREFUSED")))
               = Rejected (JsError "Error" "connect ECONNREFUSED"))
    by (vm_compute; reflexivity).
  split; [exact Hr|].
  exact (example_rejection_unhandled basic_URL_parse
           (NetError (JsError "Error" "connect ECONNREFUSED"))
           (JsError "Error" "connect ECONNREFUSED") Hr).
Defined.
